(** * SuperSelect: the layer-selection commands of the canvas tool

    A shallow embedding of the SuperSelect action module: the commands that
    turn a click, a double click, a marquee or a key press into a selection
    change over the layer tree of a document.

    Conventions of the embedding.
    - A JavaScript number that is a layer or document ID is a [Z]; a
      coordinate is a rational [Q] (the arithmetic on coordinates in this
      file is one sum and one halving).
    - [undefined] and [null] are [None].
    - A promise is its settlement, [Resolved v] or [Rejected e]; a command
      is the list of requests it sends to its collaborators (actions it
      transfers to, events it dispatches, host calls that change something)
      together with the settlement of the promise it returns.
    - The layer tree, the UI store and the host process live outside this
      module: the tree is a record of the properties and methods the
      commands read, the stores and the host are the record [Env]. *)

From Stdlib Require Import ZArith QArith List String Bool Lia Sorted.
From stdpp Require Import base decidable option list gmap strings.

Import ListNotations.
Local Open Scope string_scope.
Local Open Scope list_scope.
Local Open Scope Z_scope.

(** ** JavaScript values and promises *)

Module Js.

Inductive Error : Type :=
| TypeError
| HostError (message : string).

Inductive Promise (A : Type) : Type :=
| Resolved (value : A)
| Rejected (reason : Error).

Arguments Resolved {A} value.
Arguments Rejected {A} reason.

(** [p.then(onFulfilled)] *)
Definition then_ {A B} (p : Promise A) (onFulfilled : A -> Promise B) : Promise B :=
  match p with
  | Resolved v => onFulfilled v
  | Rejected e => Rejected e
  end.

(** [p.then(onFulfilled, onRejected)]: [onRejected] sees a rejection of
    [p] only, not one raised by [onFulfilled]. *)
Definition then2 {A B} (p : Promise A)
    (onFulfilled : A -> Promise B) (onRejected : Error -> Promise B) : Promise B :=
  match p with
  | Resolved v => onFulfilled v
  | Rejected e => onRejected e
  end.

(** A number that may be [NaN]. *)
Definition Num : Type := option Z.

(** [a % b] on integers: the sign of the dividend, [NaN] when [b] is 0. *)
Definition rem (a b : Z) : Num :=
  if b =? 0 then None else Some (Z.rem a b).

(** [!x] for an optional coordinate: [undefined] and [0] are falsy. *)
Definition falsy (x : option Q) : bool :=
  match x with
  | None => true
  | Some q => Qeq_bool q 0
  end.

End Js.

Import Js.

#[global] Instance Q_eq_dec : EqDecision Q.
Proof. solve_decision. Defined.

(** ** The part of Immutable.js the commands use *)

Module Immutable.

Section Lists.
Context {A : Type} `{EqDecision A}.

Definition isEmpty (l : list A) : bool :=
  match l with [] => true | _ :: _ => false end.

Definition size (l : list A) : Z := Z.of_nat (length l).

Definition first (l : list A) : option A := head l.

Definition last (l : list A) : option A := List.last (map Some l) None.

(** [l.contains(x)], with [Immutable.is] as equality. *)
Fixpoint contains (l : list A) (x : A) : bool :=
  match l with
  | [] => false
  | y :: l' => if decide (y = x) then true else contains l' x
  end.

(** [l.indexOf(x)]: the first position of [x], or -1. *)
Fixpoint indexOf (l : list A) (x : A) : Z :=
  match l with
  | [] => -1
  | y :: l' =>
      if decide (y = x) then 0
      else let i := indexOf l' x in if i <? 0 then -1 else i + 1
  end.

(** [l.get(index)]: [NaN] finds nothing, a negative index counts from
    the end, an index out of range finds nothing. *)
Definition get (l : list A) (index : Num) : option A :=
  match index with
  | None => None
  | Some i =>
      let i := if i <? 0 then size l + i else i in
      if (0 <=? i) && (i <? size l) then nth_error l (Z.to_nat i) else None
  end.

(** *** Sets

    A set is kept as the list of its members in insertion order,
    without duplicates. That is the order in which an ES6 [Set] iterates.
    [Immutable.Set] promises no order of its own; its array-backed
    representation of small sets iterates in insertion order, and this is
    the order the commands count on when they take the [last] of a set. *)

Definition add (x : A) (s : list A) : list A :=
  if contains s x then s else s ++ [x].

Definition Set_ (l : list A) : list A :=
  fold_left (fun s x => add x s) l [].

(** [s.concat(l)] on a set: the union, members of [s] first. *)
Definition concat (s l : list A) : list A :=
  fold_left (fun s x => add x s) l s.

End Lists.

(** [s.map(f)] on a set is again a set. *)
Definition Set_map {A B} `{EqDecision B} (f : A -> B) (s : list A) : list B :=
  Set_ (map f s).

(** [c.sortBy(key)]: the stable sort by [key] in ascending order. *)
Section SortBy.
Context {A : Type} (key : A -> Z).

Fixpoint insert (x : A) (sorted : list A) : list A :=
  match sorted with
  | [] => [x]
  | y :: ys => if key x <=? key y then x :: y :: ys else y :: insert x ys
  end.

Definition sortBy (l : list A) : list A := fold_right insert [] l.
End SortBy.

End Immutable.

(** ** Layers, bounds and the layer tree *)

Record Bounds : Type := {
  top : Q;
  left : Q;
  bottom : Q;
  right : Q
}.

#[global] Instance Bounds_eq_dec : EqDecision Bounds.
Proof. solve_decision. Defined.

(** The entries of [layer.layerKinds] the commands compare against. *)
Record LayerKinds : Type := {
  VECTOR : Z;
  TEXT : Z;
  SMARTOBJECT : Z;
  GROUPEND : Z
}.

#[global] Instance LayerKinds_eq_dec : EqDecision LayerKinds.
Proof. solve_decision. Defined.

Record Layer : Type := {
  id : Z;
  kind : Z;
  layerKinds : LayerKinds;
  bounds : option Bounds;
  locked : bool;
  selected : bool;
  superSelectable : bool;
  isArtboard : bool;
  isBackground : bool
}.

#[global] Instance Layer_eq_dec : EqDecision Layer.
Proof. solve_decision. Defined.

(** The properties and methods of [LayerStructure] the commands read. *)
Module LayerStructure.
Record t : Type := {
  all : list Layer;
  selected : list Layer;
  top : list Layer;
  selectable : list Layer;
  leaves : list Layer;
  children : Layer -> list Layer;
  parent : Layer -> option Layer;
  siblings : Layer -> list Layer;
  ancestors : Layer -> list Layer;
  byID : Z -> option Layer;
  childBounds : Layer -> option Bounds
}.
End LayerStructure.

Record Document : Type := {
  docId : Z;
  layers : LayerStructure.t
}.

(** ** js/util/collection *)

Module collection.

(** Modelled from the spec: [collection.pluck] of js/util/collection,
    which is not among the sources; here at the property ["id"] of a list
    of layers: the list of their IDs. *)
Definition pluck_id (layers : list Layer) : list Z := map id layers.

(** Modelled from the spec: [collection.pluck] at the property ["id"] of
    a set of layers: the set of their IDs. *)
Definition pluck_id_set (layers : list Layer) : list Z :=
  Immutable.Set_map id layers.

(** Modelled from the spec: [collection.intersection] of
    js/util/collection: the members of [a] that [b] contains, in the
    order of [a]. *)
Definition intersection {A} `{EqDecision A} (a b : list A) : list A :=
  List.filter (fun elem => Immutable.contains b elem) a.

End collection.

(** ** Collaborators: the UI store, the host process *)

Record Point : Type := { px : Q; py : Q }.

(** The play object built by [hitTestLib.layerIDsAtPoint] from the document
    reference [documentLib.referenceBy.id(id)] and the point. *)
Record PlayObject : Type := layerIDsAtPoint {
  documentRef : Z;
  hitX : Q;
  hitY : Q
}.

(** The reply of the host to a hit test: an object whose keys hold lists of
    layer IDs. *)
Abbreviation Descriptor := (gmap string (list Z)).

Record Env : Type := {
  (** [this.flux.store("ui")] *)
  transformWindowToCanvas : Q -> Q -> Point;
  transformCanvasToWindow : Q -> Q -> Point;
  zoomCanvasToWindow : Q -> Q;
  (** [window.devicePixelRatio] *)
  devicePixelRatio : Q;
  (** [uiUtil.getNameBadgeBounds] *)
  getNameBadgeBounds : option Bounds -> Q -> option Bounds;
  (** [Bounds.prototype.contains] *)
  boundsContains : Bounds -> Q -> Q -> bool;
  (** [descriptor.playObject], the settlement of a hit test *)
  playObject : PlayObject -> Promise Descriptor;
  (** [descriptor.play], the settlement of a host command *)
  play : string -> Promise unit
}.

(** ** What a command asks of its collaborators *)

Inductive SelectTarget : Type :=
| OneLayer (layer : option Layer)
| LayerList (layers : list (option Layer)).

Inductive Effect : Type :=
| LogSuperselect (eventName : string)
| TransferSelect (doc : Z) (target : SelectTarget) (modifier : option string)
| TransferDeselectAll (doc : Z)
| TransferEditLayer (doc : Z) (layer : Layer) (x y : option Q)
| TransferToolSelect (toolID : string)
| TransferUpdateDocument
| PostLeftMouseDown (x y : Q)
| DescriptorPlay (name : string)
| DispatchMarquee (enabled : bool).

(** A command: the requests sent, in order, and the settlement of the
    returned promise. An action a command transfers to and an event it
    posts are taken to be fulfilled; a host call settles as [Env] says. *)
Module Cmd.

Definition t (A : Type) : Type := (list Effect * Promise A)%type.

Definition ret {A} (a : A) : t A := ([], Resolved a).

Definition throw {A} (e : Error) : t A := ([], Rejected e).

Definition bind {A B} (m : t A) (k : A -> t B) : t B :=
  match m with
  | (tr, Resolved a) => let '(tr', r) := k a in (tr ++ tr', r)
  | (tr, Rejected e) => (tr, Rejected e)
  end.

(** [m.then(onFulfilled, onRejected)] on commands. *)
Definition bind2 {A B} (m : t A) (k : A -> t B) (h : Error -> t B) : t B :=
  match m with
  | (tr, Resolved a) => let '(tr', r) := k a in (tr ++ tr', r)
  | (tr, Rejected e) => let '(tr', r) := h e in (tr ++ tr', r)
  end.

Definition emit (e : Effect) : t unit := ([e], Resolved tt).

Definition await {A} (p : Promise A) : t A := ([], p).

(** The requests of a command, and its settlement. *)
Definition requests {A} (m : t A) : list Effect := fst m.
Definition settled {A} (m : t A) : Promise A := snd m.

End Cmd.

#[global] Instance Cmd_ret : MRet Cmd.t := @Cmd.ret.
#[global] Instance Cmd_bind : MBind Cmd.t := fun A B k m => Cmd.bind m k.

(** ** The commands *)

Module SuperSelect.

Import Immutable.
Module LS := LayerStructure.

(** [headlights.logEvent("tools", "superselect", eventName)] *)
Definition _logSuperselect (eventName : string) : Cmd.t unit :=
  Cmd.emit (LogSuperselect eventName).

Definition _getDiveableLayers (layerTree : LS.t) (parentLayers : list Layer)
    : list Layer :=
  List.filter (fun layer => superSelectable layer)
    (List.concat (map (LS.children layerTree) parentLayers)).

Definition _getSelectedLayerParents (layerTree : LS.t) (noDeselect : bool)
    : list Layer :=
  fold_left
    (fun parents layer =>
       let parent := LS.parent layerTree layer in
       if noDeselect && negb (bool_decide (is_Some parent)) then add layer parents
       else match parent with
            | Some p => add p parents
            | None => parents
            end)
    (LS.selected layerTree) [].

Definition _getNextSiblingsForSelectedLayers (layerTree : LS.t) (previous : bool)
    : list (option Layer) :=
  if isEmpty (LS.all layerTree) then []
  else
    let selectedLayers := LS.selected layerTree in
    let selectedLayers :=
      if isEmpty selectedLayers then LS.top layerTree else selectedLayers in
    let step := if previous then -1 else 1 in
    let selectedLayers := firstn 1 selectedLayers in
    map (fun layer =>
           let siblings :=
             List.filter (fun layer => superSelectable layer)
               (LS.siblings layerTree layer) in
           let layerIndex := if isEmpty siblings then 0 else indexOf siblings layer in
           let nextIndex := Js.rem (layerIndex + step) (size siblings) in
           get siblings nextIndex)
        selectedLayers.

(** [Immutable.List(ids)]: [undefined] gives the empty list. *)
Definition List_ (ids : option (list Z)) : list Z :=
  match ids with
  | Some l => l
  | None => []
  end.

Definition _getHitLayerIDs (env : Env) (id : Z) (x y : Q) : Promise (list Z) :=
  let documentRef := id in
  let hitPlayObj := layerIDsAtPoint documentRef x y in
  then2
    (then_ (playObject env hitPlayObj)
           (fun reply => Resolved (reply !! "layersHit")))
    (fun ids => Resolved (List_ ids))
    (fun _ => Resolved (List_ None)).

Definition _getContainingLayerBounds (env : Env) (layerTree : LS.t) (x y : Q)
    : list Layer :=
  Set_
    (fold_left
       (fun layerSet layer =>
          let bounds :=
            if isArtboard layer then
              let scale := Qmult (zoomCanvasToWindow env 1) (devicePixelRatio env) in
              getNameBadgeBounds env (bounds layer) scale
            else LS.childBounds layerTree layer in
          match bounds with
          | Some b => if boundsContains env b x y then add layer layerSet else layerSet
          | None => layerSet
          end)
       (LS.all layerTree) []).

(** [layerMap.hasOwnProperty(id)] *)
Definition hasOwnProperty (layerMap : gmap Z bool) (id : Z) : bool :=
  bool_decide (is_Some (layerMap !! id)).

Definition _getLeafLayersWithID (layerTree : LS.t) (layerMap : gmap Z bool)
    : list Layer :=
  List.filter (fun layer => hasOwnProperty layerMap (id layer)) (LS.leaves layerTree).

Definition _isOnlySelectedLayer (layerTree : LS.t) (layer : Layer) : bool :=
  let selected := LS.selected layerTree in
  if negb (size selected =? 1) then false
  else bool_decide (first selected = Some layer).

Definition _getLayersBelowCurrentSelection (layerTree : LS.t)
    (coveredLayers : list Layer) : list Z :=
  let selectedLayerAncestors :=
    fold_left
      (fun layerSet layer =>
         fold_left (fun layerSet ancestor => add ancestor layerSet)
           (LS.ancestors layerTree layer) layerSet)
      (LS.selected layerTree) [] in
  let selectableCoveredLayers :=
    List.filter
      (fun layer =>
         negb (locked layer) &&
         negb (kind layer =? GROUPEND (layerKinds layer)) &&
         negb (contains selectedLayerAncestors layer))
      coveredLayers in
  collection.pluck_id_set selectableCoveredLayers.

Definition editLayerCommand (env : Env) (document : Document) (layer : Layer)
    (x y : option Q) : Cmd.t unit :=
  if isBackground layer then Cmd.ret tt
  else
    let kinds := layerKinds layer in
    let continue (x y : Q) : Cmd.t unit :=
      if kind layer =? VECTOR kinds then
        _logSuperselect "edit_vector";;
        Cmd.emit (TransferToolSelect "superselectVector");;
        Cmd.emit (PostLeftMouseDown x y)
      else if kind layer =? TEXT kinds then
        _logSuperselect "edit_text";;
        Cmd.emit (TransferToolSelect "superselectType");;
        Cmd.emit (PostLeftMouseDown x y)
      else if kind layer =? SMARTOBJECT kinds then
        _logSuperselect "edit_smart_object";;
        Cmd.bind2
          (Cmd.emit (DescriptorPlay "placedLayerEditContents");;
           Cmd.await (play env "placedLayerEditContents"))
          (fun _ => Cmd.emit TransferUpdateDocument)
          (fun _ => Cmd.ret tt)
      else Cmd.ret tt in
    if falsy x || falsy y then
      match bounds layer with
      | None => Cmd.ret tt
      | Some bounds =>
          let x := Qdiv (Qplus (right bounds) (left bounds)) 2 in
          let y := Qdiv (Qplus (top bounds) (bottom bounds)) 2 in
          let windowCoords := transformCanvasToWindow env x y in
          continue (px windowCoords) (py windowCoords)
      end
    else
      match x, y with
      | Some x, Some y => continue x y
      | _, _ => Cmd.ret tt (* not reached: a missing coordinate is falsy *)
      end.

(** The first half of the continuation of [clickCommand]: from the hit
    test's IDs to [clickedSelectableLayerIDs]. *)
Definition clickedSelectableLayerIDs (env : Env) (layerTree : LS.t)
    (coords : Point) (deep : bool) (hitLayerIDs : list Z) : list Z :=
  let coveredLayers :=
    _getContainingLayerBounds env layerTree (px coords) (py coords) in
  let coveredLayerIDs :=
    concat (collection.pluck_id_set coveredLayers) hitLayerIDs in
  let coveredLayerIDs :=
    sortBy (fun id => indexOf hitLayerIDs id) coveredLayerIDs in
  if deep then
    let hitLayerMap :=
      fold_left (fun layerMap id => <[id := true]> layerMap)
        coveredLayerIDs (∅ : gmap Z bool) in
    let clickedSelectableLayers := _getLeafLayersWithID layerTree hitLayerMap in
    collection.pluck_id clickedSelectableLayers
  else
    let selectableLayers := LS.selectable layerTree in
    let clickableLayers := collection.intersection selectableLayers coveredLayers in
    let clickableLayerIDs := collection.pluck_id clickableLayers in
    collection.intersection coveredLayerIDs clickableLayerIDs.

Definition clickCommand (env : Env) (doc : Document) (x y : Q) (deep add : bool)
    : Cmd.t bool :=
  let coords := transformWindowToCanvas env x y in
  let layerTree := layers doc in
  hitLayerIDs ← Cmd.await (_getHitLayerIDs env (docId doc) (px coords) (py coords));
  let clickedSelectableLayerIDs :=
    clickedSelectableLayerIDs env layerTree coords deep hitLayerIDs in
  match last clickedSelectableLayerIDs with
  | Some topLayerID =>
      match LS.byID layerTree topLayerID with
      | None => Cmd.throw TypeError (* [topLayer.selected] of no layer *)
      | Some topLayer =>
          let fire (modifier : string) : Cmd.t bool :=
            if String.eqb modifier "select" && selected topLayer then Cmd.ret true
            else
              (if deep then _logSuperselect ("click_deep_" ++ modifier)
               else _logSuperselect ("click_" ++ modifier));;
              Cmd.emit (TransferSelect (docId doc) (OneLayer (Some topLayer))
                          (Some modifier));;
              Cmd.ret true in
          if add && selected topLayer then
            if _isOnlySelectedLayer layerTree topLayer then
              _logSuperselect "deselect_all";;
              Cmd.emit (TransferDeselectAll (docId doc));;
              Cmd.ret false
            else fire "deselect"
          else if add then fire "add"
          else fire "select"
      end
  | None =>
      if negb (isEmpty (LS.selected (layers doc))) then
        _logSuperselect "deselect_all";;
        Cmd.emit (TransferDeselectAll (docId doc));;
        Cmd.ret false
      else Cmd.ret false
  end.

Definition doubleClickCommand (env : Env) (doc : Document) (x y : Q)
    : Cmd.t unit :=
  let coords := transformWindowToCanvas env x y in
  let layerTree := layers doc in
  hitLayerIDs ← Cmd.await (_getHitLayerIDs env (docId doc) (px coords) (py coords));
  let diveIntoLayers := LS.selected layerTree in
  let diveIntoLayers :=
    if isEmpty diveIntoLayers then LS.top layerTree else diveIntoLayers in
  let selectableLayers := _getDiveableLayers layerTree diveIntoLayers in
  if isEmpty selectableLayers then
    let selectedLayers := LS.selected layerTree in
    let clickedLayer :=
      List.find (fun layer => contains hitLayerIDs (id layer)) selectedLayers in
    match clickedLayer with
    | Some clickedLayer =>
        Cmd.emit (TransferSelect (docId doc) (OneLayer (Some clickedLayer)) None);;
        _logSuperselect "double_click_edit";;
        Cmd.emit (TransferEditLayer (docId doc) clickedLayer (Some x) (Some y))
    | None => Cmd.ret tt
    end
  else
    let coveredLayers :=
      _getContainingLayerBounds env layerTree (px coords) (py coords) in
    let diveableLayers := collection.intersection selectableLayers coveredLayers in
    let diveableLayerIDs := collection.pluck_id diveableLayers in
    let targetLayerIDs := collection.intersection hitLayerIDs diveableLayerIDs in
    let topTargetID := last targetLayerIDs in
    if negb (isEmpty targetLayerIDs) then
      _logSuperselect "double_click_select";;
      Cmd.emit (TransferSelect (docId doc)
                  (OneLayer (topTargetID ≫= LS.byID layerTree)) None)
    else
      let underLayerIDs := _getLayersBelowCurrentSelection layerTree coveredLayers in
      if negb (isEmpty underLayerIDs) then
        let topLayerID := last underLayerIDs in
        Cmd.emit (TransferSelect (docId doc)
                    (OneLayer (topLayerID ≫= LS.byID layerTree)) None)
      else Cmd.ret tt.

Definition backOutCommand (doc : Document) (noDeselect : bool) : Cmd.t unit :=
  let layerTree := layers doc in
  let backOutParents := _getSelectedLayerParents layerTree noDeselect in
  if negb (isEmpty backOutParents) then
    _logSuperselect "key_backout";;
    Cmd.emit (TransferSelect (docId doc) (LayerList (map Some backOutParents)) None)
  else if negb noDeselect then
    _logSuperselect "key_backout_deselect";;
    Cmd.emit (TransferDeselectAll (docId doc))
  else Cmd.ret tt.

Definition nextSiblingCommand (doc : Document) (cycleBack : bool) : Cmd.t unit :=
  let layerTree := layers doc in
  let nextSiblings := _getNextSiblingsForSelectedLayers layerTree cycleBack in
  _logSuperselect "key_next_sibling";;
  Cmd.emit (TransferSelect (docId doc) (LayerList nextSiblings) None).

Definition diveInCommand (doc : Document) : Cmd.t unit :=
  let layerTree := layers doc in
  let diveableLayers := _getDiveableLayers layerTree (LS.selected layerTree) in
  if isEmpty diveableLayers then
    let selectedLayers := LS.selected layerTree in
    if size selectedLayers =? 1 then
      match get selectedLayers (Some 0) with
      | None => Cmd.throw TypeError (* not reached: the size is 1 *)
      | Some topLayer =>
          if locked topLayer then Cmd.ret tt
          else
            _logSuperselect "key_edit";;
            Cmd.emit (TransferEditLayer (docId doc) topLayer None None)
      end
    else Cmd.ret tt
  else
    _logSuperselect "key_dive_in";;
    Cmd.emit (TransferSelect (docId doc) (OneLayer (first diveableLayers)) None).

Definition marqueeSelectCommand (doc : Document) (ids : list Z) (add : bool)
    : Cmd.t unit :=
  Cmd.emit (DispatchMarquee false);;
  let layers := map (LS.byID (layers doc)) ids in
  let modifier := if add then "add" else "select" in
  if isEmpty layers && negb add then
    _logSuperselect "marqueeDeselect";;
    Cmd.emit (TransferDeselectAll (docId doc))
  else if negb (isEmpty layers) then
    _logSuperselect "marqueeSelect";;
    Cmd.emit (TransferSelect (docId doc) (LayerList layers) (Some modifier))
  else Cmd.ret tt.

End SuperSelect.

Import SuperSelect.
Module LS := LayerStructure.

(** ** A small document to run the commands on *)

Module Sample.

Definition kinds : LayerKinds :=
  {| VECTOR := 4; TEXT := 3; SMARTOBJECT := 5; GROUPEND := 13 |}.

Definition box (t l b r : Z) : Bounds :=
  {| top := inject_Z t; left := inject_Z l;
     bottom := inject_Z b; right := inject_Z r |}.

Definition mk (i k : Z) (b : Bounds) (lock sel super : bool) : Layer :=
  {| id := i; kind := k; layerKinds := kinds; bounds := Some b;
     locked := lock; selected := sel; superSelectable := super;
     isArtboard := false; isBackground := false |}.

(** The host answers every hit test with [hit] and accepts every command;
    window and canvas coordinates coincide; a box contains its border. *)
Definition env (hit : Promise Descriptor) : Env :=
  {| transformWindowToCanvas := fun x y => {| px := x; py := y |};
     transformCanvasToWindow := fun x y => {| px := x; py := y |};
     zoomCanvasToWindow := fun z => z;
     devicePixelRatio := 1;
     getNameBadgeBounds := fun b _ => b;
     boundsContains := fun b x y =>
       Qle_bool (top b) y && Qle_bool y (bottom b) &&
       Qle_bool (left b) x && Qle_bool x (right b);
     playObject := fun _ => hit;
     play := fun _ => Resolved tt |}.

Definition hits (ids : list Z) : Promise Descriptor :=
  Resolved {[ "layersHit" := ids ]}.

(** A flat tree: every layer is a top-level layer without children, and
    its bounds are its own. *)
Definition flat (ls : list Layer) : LS.t :=
  {| LS.all := ls;
     LS.selected := List.filter selected ls;
     LS.top := ls;
     LS.selectable := List.filter (fun l => negb (locked l)) ls;
     LS.leaves := ls;
     LS.children := fun _ => [];
     LS.parent := fun _ => None;
     LS.siblings := fun _ => ls;
     LS.ancestors := fun l => [l];
     LS.byID := fun i => List.find (fun l => id l =? i) ls;
     LS.childBounds := bounds |}.

(** Layers for the edit modes: a shape, a text, a background. *)
Definition shape : Layer := mk 1 4 (box 0 0 10 20) false true true.
Definition caption : Layer := mk 2 3 (box 0 0 10 20) false true true.
Definition pixels : Layer := mk 3 1 (box 0 0 10 20) false true true.
Definition background : Layer :=
  {| id := 4; kind := 4; layerKinds := kinds; bounds := Some (box 0 0 10 20);
     locked := true; selected := true; superSelectable := false;
     isArtboard := false; isBackground := true |}.
Definition unbounded : Layer :=
  {| id := 5; kind := 4; layerKinds := kinds; bounds := None;
     locked := false; selected := true; superSelectable := true;
     isArtboard := false; isBackground := false |}.

Definition quiet : Env := env (hits []).

Definition doc (ls : list Layer) : Document := {| docId := 7; layers := flat ls |}.

(** A group with two children, a locked one and a free one, and a
    top-level layer beside it; [sel] is the selection. *)
Definition group : Layer := mk 10 7 (box 0 0 100 100) false true true.
Definition lockedChild : Layer := mk 11 1 (box 0 0 50 50) true false false.
Definition freeChild : Layer := mk 12 1 (box 0 0 50 50) false false true.
Definition otherChild : Layer := mk 13 1 (box 20 20 80 80) false false true.
Definition beside : Layer := mk 14 1 (box 0 0 100 100) false false true.

Definition isChild (l : Layer) : bool :=
  bool_decide (l = lockedChild) || bool_decide (l = freeChild)
  || bool_decide (l = otherChild).

Definition grouped (sel : list Layer) : LS.t :=
  {| LS.all := [beside; group; lockedChild; freeChild; otherChild];
     LS.selected := sel;
     LS.top := [beside; group];
     LS.selectable := [beside; group];
     LS.leaves := [beside; lockedChild; freeChild; otherChild];
     LS.children := fun l =>
       if bool_decide (l = group) then [lockedChild; freeChild; otherChild] else [];
     LS.parent := fun l => if isChild l then Some group else None;
     LS.siblings := fun l =>
       if isChild l then [lockedChild; freeChild; otherChild] else [beside; group];
     LS.ancestors := fun l => if isChild l then [l; group] else [l];
     LS.byID := fun i =>
       List.find (fun l => id l =? i)
         [beside; group; lockedChild; freeChild; otherChild];
     LS.childBounds := bounds |}.

Definition groupDoc (sel : list Layer) : Document :=
  {| docId := 7; layers := grouped sel |}.

End Sample.

(** ** Vocabulary of the statements *)

(** The order a sort by [key] establishes. *)
Definition key_le {A : Type} (key : A -> Z) (a b : A) : Prop := key a <= key b.

(** The children of the given layers, in order. *)
Definition childrenOf (layerTree : LS.t) (parents : list Layer) : list Layer :=
  List.concat (map (LS.children layerTree) parents).

(** What a selected layer [l] contributes when backing out: its parent, or
    itself when it has none and [noDeselect] is set. *)
Definition backsOutTo (layerTree : LS.t) (noDeselect : bool) (l p : Layer) : Prop :=
  LS.parent layerTree l = Some p \/
  (noDeselect = true /\ LS.parent layerTree l = None /\ p = l).

(** Backing out, as the description of [backOutCommand] has it: the
    parents of the selection are selected; without [noDeselect] a
    selection without parents is dropped; with [noDeselect] a selection
    without parents sends no request. *)
Definition backOut_as_described (doc : Document) (noDeselect : bool) : Prop :=
  let layerTree := layers doc in
  let orphans :=
    forall l, In l (LS.selected layerTree) -> LS.parent layerTree l = None in
  ((exists l p, In l (LS.selected layerTree) /\ LS.parent layerTree l = Some p) ->
   backOutCommand doc noDeselect =
     ([LogSuperselect "key_backout";
       TransferSelect (docId doc)
         (LayerList (map Some (_getSelectedLayerParents layerTree noDeselect))) None],
      Resolved tt)) /\
  (orphans -> noDeselect = false ->
   backOutCommand doc noDeselect =
     ([LogSuperselect "key_backout_deselect"; TransferDeselectAll (docId doc)],
      Resolved tt)) /\
  (orphans -> noDeselect = true ->
   backOutCommand doc noDeselect = ([], Resolved tt)).

(** The layers [_getNextSiblingsForSelectedLayers] starts from: the
    selection, or the top-level layers when nothing is selected. *)
Definition considered (layerTree : LS.t) : list Layer :=
  if Immutable.isEmpty (LS.selected layerTree) then LS.top layerTree
  else LS.selected layerTree.

(** The superSelectable siblings of a layer, in order. *)
Definition selectableSiblings (layerTree : LS.t) (l : Layer) : list Layer :=
  List.filter (fun layer => superSelectable layer) (LS.siblings layerTree l).


(** The test [_getContainingLayerBounds] applies to a layer: the name badge
    of an artboard, or the bounds of the layer with its children, contains
    the point. *)
Definition coversPoint (env : Env) (layerTree : LS.t) (x y : Q) (layer : Layer)
    : bool :=
  match (if isArtboard layer then
           getNameBadgeBounds env (bounds layer)
             (Qmult (zoomCanvasToWindow env 1) (devicePixelRatio env))
         else LS.childBounds layerTree layer) with
  | Some b => boundsContains env b x y
  | None => false
  end.

(** A selectable layer of the tree that lies under the point. *)
Definition clickable (env : Env) (layerTree : LS.t) (coords : Point) (l : Layer)
    : Prop :=
  In l (LS.selectable layerTree) /\ In l (LS.all layerTree) /\
  coversPoint env layerTree (px coords) (py coords) l = true.

(** Every layer of the tree is found by its ID. *)
Definition byID_finds_all (layerTree : LS.t) : Prop :=
  forall l, In l (LS.all layerTree) -> LS.byID layerTree (id l) = Some l.

Definition isSelectionAction (e : Effect) : bool :=
  match e with
  | TransferSelect _ _ _ | TransferDeselectAll _ => true
  | _ => false
  end.

(** A click without the add modifier, as the description of [clickCommand]
    has it: a selectable layer under the point makes the click select the
    top one and resolve [true]; without one, a non-empty selection is
    dropped and an empty one left alone, and the click resolves [false]. *)
Definition click_as_described (env : Env) (doc : Document) (x y : Q) (deep : bool)
    : Prop :=
  let coords := transformWindowToCanvas env x y in
  let layerTree := layers doc in
  let result := clickCommand env doc x y deep false in
  forall hit,
    _getHitLayerIDs env (docId doc) (px coords) (py coords) = Resolved hit ->
    ((exists l, clickable env layerTree coords l) ->
     exists top,
       clickable env layerTree coords top /\
       (forall l, clickable env layerTree coords l ->
                  Immutable.indexOf hit (id l) <= Immutable.indexOf hit (id top)) /\
       In (TransferSelect (docId doc) (OneLayer (Some top)) (Some "select"))
          (Cmd.requests result) /\
       Cmd.settled result = Resolved true) /\
    ((forall l, ~ clickable env layerTree coords l) ->
     LS.selected layerTree <> [] ->
     In (TransferDeselectAll (docId doc)) (Cmd.requests result) /\
     Cmd.settled result = Resolved false) /\
    ((forall l, ~ clickable env layerTree coords l) ->
     LS.selected layerTree = [] ->
     List.filter isSelectionAction (Cmd.requests result) = [] /\
     Cmd.settled result = Resolved false).

(** The layers a double click dives into have a superSelectable child. *)
Definition hasDiveableChild (layerTree : LS.t) : Prop :=
  exists p k, In p (considered layerTree) /\ In k (LS.children layerTree p) /\
              superSelectable k = true.


(** A layer a double click can fall down to: unlocked, not the end marker
    of a group, and not among the ancestors of a selected layer. *)
Definition fallsBelow (layerTree : LS.t) (l : Layer) : Prop :=
  locked l = false /\
  kind l <> GROUPEND (layerKinds l) /\
  (forall s, In s (LS.selected layerTree) -> ~ In l (LS.ancestors layerTree s)).

(** The window coordinates of the center of a box. *)
Definition centerInWindow (env : Env) (b : Bounds) : Point :=
  transformCanvasToWindow env
    (Qdiv (Qplus (right b) (left b)) 2) (Qdiv (Qplus (top b) (bottom b)) 2).

(** ** Dragging *)

(** The modifier keys of a drag; a property that is absent reads as
    [false]. *)
Module Modifiers.
Record t : Type := {
  shift : bool;
  control : bool;
  alt : bool;
  command : bool;
  option : bool
}.
End Modifiers.

Module Drag.

(** [system.isMac] and [keyUtil.modifiersToBits]. *)
Record Platform : Type := {
  isMac : bool;
  modifiersToBits : Modifiers.t -> Z
}.

(** The two variables of the module that remember the listeners of the
    last drag. A listener is a closure; it is known by the number of the
    drag that made it, and [allocated] counts the drags that made one. *)
Record Listeners : Type := {
  _moveListener : Datatypes.option nat;
  _moveToArtboardListener : Datatypes.option nat;
  allocated : nat
}.

Definition initial : Listeners :=
  {| _moveListener := None; _moveToArtboardListener := None; allocated := 0 |}.

Inductive Request : Type :=
| Clicked (e : Effect)
| ToggleOverlays (enabled : bool)
| PostDrag (x y : Q) (modifiers : Z)
| StartMarquee (x y : Q)
| RemoveListener (event : string) (listener : nat)
| AddListener (event : string) (listener : nat)
| OnceListener (event : string) (listener : nat).

(** [if (listener) { descriptor.removeListener(event, listener); }] *)
Definition removeIfSet (event : string) (listener : Datatypes.option nat)
    : list Request :=
  match listener with
  | Some n => [RemoveListener event n]
  | None => []
  end.

(** [dragCommand]: the requests sent, the variables of the module after
    the call, and the settlement of the returned promise. The transfer to
    the click action runs [clickCommand]; the body of the move listener
    runs when the host reports the move, not during the command. *)
Definition dragCommand (platform : Platform) (env : Env) (vars : Listeners)
    (doc : Document) (x y : Q) (modifiers : Modifiers.t) (panning : bool)
    : list Request * Listeners * Promise unit :=
  let dragModifiers := modifiersToBits platform modifiers in
  let diveIn :=
    if isMac platform then Modifiers.command modifiers
    else Modifiers.control modifiers in
  let dontDeselect := Modifiers.shift modifiers in
  if panning then
    ([ToggleOverlays false; PostDrag x y dragModifiers], vars, Resolved tt)
  else if dontDeselect then ([StartMarquee x y], vars, Resolved tt)
  else
    let click := clickCommand env doc x y diveIn (Modifiers.shift modifiers) in
    let clicked := map Clicked (Cmd.requests click) in
    match Cmd.settled click with
    | Resolved true =>
        let listener := allocated vars in
        (clicked
         ++ removeIfSet "move" (_moveListener vars)
         ++ removeIfSet "moveToArtboard" (_moveToArtboardListener vars)
         ++ [AddListener "moveToArtboard" listener;
             OnceListener "move" listener;
             ToggleOverlays false;
             PostDrag x y dragModifiers],
         {| _moveListener := Some listener;
            _moveToArtboardListener := Some listener;
            allocated := S (allocated vars) |},
         Resolved tt)
    | Resolved false => (clicked ++ [StartMarquee x y], vars, Resolved tt)
    | Rejected _ => (clicked, vars, Resolved tt) (* [.catch(function () {})] *)
    end.

(** The arguments of one call of [dragCommand]. *)
Record Call : Type := {
  doc : Document;
  x : Q;
  y : Q;
  modifiers : Modifiers.t;
  panning : bool
}.

(** A series of drags, each starting from the variables the one before
    left. *)
Fixpoint dragAll (platform : Platform) (env : Env) (vars : Listeners)
    (calls : list Call) : list Request * Listeners :=
  match calls with
  | [] => ([], vars)
  | c :: calls' =>
      let '(requests, vars', _) :=
        dragCommand platform env vars (doc c) (x c) (y c) (modifiers c) (panning c) in
      let '(rest, vars'') := dragAll platform env vars' calls' in
      (requests ++ rest, vars'')
  end.

(** The emitter behind [descriptor.addListener], [once] and
    [removeListener] is taken to keep one list of listeners per event:
    adding appends, removing takes one occurrence out. *)
Fixpoint removeOne (listener : nat) (listeners : list nat) : list nat :=
  match listeners with
  | [] => []
  | n :: rest => if Nat.eqb n listener then rest else n :: removeOne listener rest
  end.

Definition listen (event : string) (listeners : list nat) (r : Request) : list nat :=
  match r with
  | RemoveListener e n => if String.eqb e event then removeOne n listeners else listeners
  | AddListener e n | OnceListener e n =>
      if String.eqb e event then listeners ++ [n] else listeners
  | _ => listeners
  end.

(** The listeners of [event] after the requests, from the ones before. *)
Definition listening (event : string) (requests : list Request) (before : list nat)
    : list nat :=
  fold_left (listen event) requests before.

End Drag.

(** ** More documents to run the commands on *)

Module Cases.



(** A smart object, and a host that refuses every command. *)
Definition smart : Layer := Sample.mk 6 5 (Sample.box 0 0 10 20) false true true.

Definition refusing : Env :=
  {| transformWindowToCanvas := fun x y => {| px := x; py := y |};
     transformCanvasToWindow := fun x y => {| px := x; py := y |};
     zoomCanvasToWindow := fun z => z;
     devicePixelRatio := 1;
     getNameBadgeBounds := fun b _ => b;
     boundsContains := boundsContains Sample.quiet;
     playObject := fun _ => Rejected (HostError "no document");
     play := fun _ => Rejected (HostError "cancel") |}.

(** Two unselected layers on top of each other, and a locked one. *)
Definition lower : Layer := Sample.mk 21 1 (Sample.box 0 0 10 20) false false true.
Definition upper : Layer := Sample.mk 22 1 (Sample.box 0 0 10 20) false false true.
Definition pinned : Layer := Sample.mk 23 1 (Sample.box 0 0 10 20) true true false.

Definition mac : Drag.Platform :=
  {| Drag.isMac := true;
     Drag.modifiersToBits := fun m =>
       (if Modifiers.shift m then 1 else 0) + (if Modifiers.command m then 8 else 0) |}.

Definition noKeys : Modifiers.t :=
  {| Modifiers.shift := false; Modifiers.control := false; Modifiers.alt := false;
     Modifiers.command := false; Modifiers.option := false |}.

Definition shiftKey : Modifiers.t :=
  {| Modifiers.shift := true; Modifiers.control := false; Modifiers.alt := false;
     Modifiers.command := false; Modifiers.option := false |}.

End Cases.

(** A leaf a deep click is about: its ID was hit, or is the ID of a layer
    of the tree under the point. *)
Definition leafUnderClick (env : Env) (layerTree : LS.t) (coords : Point)
    (hit : list Z) (l : Layer) : Prop :=
  In (id l) hit \/
  exists c, In c (LS.all layerTree) /\
            coversPoint env layerTree (px coords) (py coords) c = true /\
            id c = id l.

(** The listeners of an event are none, or the one listener the module
    remembers in its variable. *)
Definition onlyListener (remembered : option nat) (listeners : list nat) : Prop :=
  listeners = [] \/ exists n, remembered = Some n /\ listeners = [n].

(** The requests a drag passes on from the click it transfers to. *)
Definition clickRequests (requests : list Drag.Request) : list Effect :=
  flat_map (fun r => match r with Drag.Clicked e => [e] | _ => [] end) requests.

(** ** Facts about lists, sets and sorting *)

Section ImmutableFacts.
Context {A : Type} `{EqDecision A}.
Import Immutable.

Lemma contains_In (l : list A) (x : A) : contains l x = true <-> In x l.
Proof.
  induction l as [|y l IH]; simpl.
  - split; [discriminate | tauto].
  - destruct (decide (y = x)) as [->|Hne].
    + split; auto.
    + rewrite IH. split; [auto | intros [Heq|Hin]; [contradiction | exact Hin]].
Qed.

Lemma contains_not_In (l : list A) (x : A) : contains l x = false <-> ~ In x l.
Proof.
  rewrite <- contains_In. destruct (contains l x); split; congruence.
Qed.

Lemma isEmpty_nil (l : list A) : isEmpty l = true <-> l = [].
Proof. destruct l; simpl; split; congruence. Qed.

Lemma isEmpty_cons (l : list A) : isEmpty l = false <-> l <> [].
Proof. destruct l; simpl; split; congruence. Qed.

Lemma last_snoc (l : list A) (x : A) : last (l ++ [x]) = Some x.
Proof.
  unfold last. rewrite map_app. simpl. apply List.last_last.
Qed.

Lemma last_nil_iff (l : list A) : last l = None <-> l = [].
Proof.
  destruct l as [|a l] using rev_ind.
  - split; reflexivity.
  - rewrite last_snoc. split; [discriminate|].
    intros Habs. destruct l; discriminate.
Qed.

Lemma last_Some_iff (l : list A) (x : A) :
  last l = Some x <-> exists l', l = l' ++ [x].
Proof.
  split.
  - destruct l as [|a l] using rev_ind; [discriminate|].
    rewrite last_snoc. intros [= ->]. exists l. reflexivity.
  - intros (l' & ->). apply last_snoc.
Qed.

Lemma last_In (l : list A) (x : A) : last l = Some x -> In x l.
Proof.
  rewrite last_Some_iff. intros (l' & ->). apply in_or_app. right. left. reflexivity.
Qed.

(** The last member of a filtered list is the last member of the list
    that passes the filter. *)
Lemma last_filter_split (p : A -> bool) (l : list A) (x : A) :
  last (List.filter p l) = Some x <->
  exists pre post, l = pre ++ x :: post /\ p x = true /\
                   (forall y, In y post -> p y = false).
Proof.
  split.
  - induction l as [|a l IH] using rev_ind; [discriminate|].
    rewrite List.filter_app. simpl. destruct (p a) eqn:Hp.
    + rewrite last_snoc. intros [= ->]. exists l, []. repeat split; auto.
      intros y [].
    + rewrite app_nil_r. intros Hl. destruct (IH Hl) as (pre & post & -> & Hx & Hpost).
      exists pre, (post ++ [a]). rewrite <- app_assoc. repeat split; auto.
      intros y Hy. apply in_app_or in Hy as [Hy|[<-|[]]]; auto.
  - intros (pre & post & -> & Hx & Hpost).
    rewrite List.filter_app. simpl. rewrite Hx.
    assert (List.filter p post = []) as ->.
    { clear -Hpost. induction post as [|b post IH]; [reflexivity|].
      simpl. rewrite (Hpost b (or_introl eq_refl)). apply IH.
      intros y Hy. apply Hpost. right. exact Hy. }
    apply last_snoc.
Qed.

Lemma filter_nil_iff (p : A -> bool) (l : list A) :
  List.filter p l = [] <-> forall y, In y l -> p y = false.
Proof.
  induction l as [|a l IH]; simpl.
  - split; [intros _ y [] | reflexivity].
  - destruct (p a) eqn:Hp.
    + split; [discriminate|]. intros Hall. rewrite (Hall a (or_introl eq_refl)) in Hp.
      discriminate.
    + rewrite IH. split.
      * intros Hall y [<-|Hy]; auto.
      * intros Hall y Hy. apply Hall. right. exact Hy.
Qed.

(** *** Sets in insertion order *)

Lemma In_add (x y : A) (s : list A) : In y (add x s) <-> y = x \/ In y s.
Proof.
  unfold add. destruct (contains s x) eqn:Hc.
  - apply contains_In in Hc. split; [auto|]. intros [->|Hy]; assumption.
  - rewrite in_app_iff. simpl. intuition congruence.
Qed.

Lemma NoDup_add (x : A) (s : list A) : List.NoDup s -> List.NoDup (add x s).
Proof.
  intros Hs. unfold add. destruct (contains s x) eqn:Hc; [exact Hs|].
  apply contains_not_In in Hc.
  apply NoDup_rev in Hs. rewrite <- (rev_involutive (s ++ [x])).
  apply NoDup_rev. rewrite rev_app_distr. simpl. constructor; [|exact Hs].
  rewrite <- in_rev. exact Hc.
Qed.

Lemma In_concat (s l : list A) (y : A) : In y (concat s l) <-> In y s \/ In y l.
Proof.
  unfold concat. revert s. induction l as [|a l IH]; intros s; simpl.
  - tauto.
  - rewrite IH, In_add. intuition congruence.
Qed.

Lemma NoDup_concat (s l : list A) : List.NoDup s -> List.NoDup (concat s l).
Proof.
  unfold concat. revert s. induction l as [|a l IH]; intros s Hs; simpl.
  - exact Hs.
  - apply IH, NoDup_add, Hs.
Qed.


Lemma In_Set_ (l : list A) (y : A) : In y (Set_ l) <-> In y l.
Proof. unfold Set_. rewrite (In_concat [] l y). simpl. tauto. Qed.

Lemma NoDup_Set_ (l : list A) : List.NoDup (Set_ l).
Proof. apply (NoDup_concat [] l). constructor. Qed.


End ImmutableFacts.

Section SortFacts.
Context {A : Type} (key : A -> Z).
Import Immutable.

Lemma In_insert (x y : A) (l : list A) : In y (insert key x l) <-> y = x \/ In y l.
Proof.
  induction l as [|a l IH]; simpl.
  - intuition congruence.
  - destruct (key x <=? key a); simpl; [intuition congruence|].
    rewrite IH. intuition congruence.
Qed.

Lemma In_sortBy (y : A) (l : list A) : In y (sortBy key l) <-> In y l.
Proof.
  induction l as [|a l IH]; simpl; [tauto|].
  rewrite In_insert, IH. intuition congruence.
Qed.

Lemma insert_sorted (x : A) (l : list A) :
  StronglySorted (key_le key) l -> StronglySorted (key_le key) (insert key x l).
Proof.
  induction 1 as [|a l Hl IH Ha]; simpl.
  - constructor; constructor.
  - destruct (key x <=? key a) eqn:Hle.
    + apply Z.leb_le in Hle. constructor.
      * constructor; assumption.
      * constructor; [exact Hle|].
        rewrite List.Forall_forall in Ha |- *. intros b Hb.
        unfold key_le in *. specialize (Ha b Hb). lia.
    + apply Z.leb_gt in Hle. constructor; [exact IH|].
      rewrite List.Forall_forall in Ha |- *. intros b Hb.
      apply In_insert in Hb as [->|Hb]; [unfold key_le; lia | auto].
Qed.

Lemma sortBy_sorted (l : list A) : StronglySorted (key_le key) (sortBy key l).
Proof.
  induction l as [|a l IH]; simpl; [constructor | apply insert_sorted, IH].
Qed.

Lemma sorted_app_le (l1 l2 : list A) :
  StronglySorted (key_le key) (l1 ++ l2) ->
  forall a b, In a l1 -> In b l2 -> key a <= key b.
Proof.
  induction l1 as [|c l1 IH]; simpl; intros Hs a b Ha Hb; [destruct Ha|].
  apply StronglySorted_inv in Hs as [Hs Hc].
  destruct Ha as [<-|Ha].
  - rewrite List.Forall_forall in Hc. apply Hc, in_or_app. right. exact Hb.
  - eapply IH; eassumption.
Qed.

(** In a sorted list, the last member that passes a filter has the
    greatest key among those that pass. *)
Lemma last_filter_sorted (p : A -> bool) (l : list A) (t : A) :
  StronglySorted (key_le key) l ->
  last (List.filter p l) = Some t ->
  forall c, In c l -> p c = true -> key c <= key t.
Proof.
  intros Hs Hl c Hc Hp.
  apply last_filter_split in Hl as (pre & post & -> & Ht & Hpost).
  apply in_app_or in Hc as [Hc|[<-|Hc]].
  - apply (sorted_app_le pre (t :: post) Hs); [exact Hc | left; reflexivity].
  - lia.
  - rewrite (Hpost c Hc) in Hp. discriminate.
Qed.

End SortFacts.

Section IndexFacts.
Context {A : Type} `{EqDecision A}.
Import Immutable.

Lemma indexOf_range (l : list A) (x : A) :
  indexOf l x = -1 \/ 0 <= indexOf l x < size l.
Proof.
  unfold size. induction l as [|a l IH]; simpl; [left; reflexivity|].
  destruct (decide (a = x)); [right; lia|].
  destruct (indexOf l x <? 0) eqn:Hneg; [left; reflexivity|].
  apply Z.ltb_ge in Hneg. right. lia.
Qed.

Lemma indexOf_In (l : list A) (x : A) : 0 <= indexOf l x <-> In x l.
Proof.
  induction l as [|a l IH]; simpl; [lia|].
  destruct (decide (a = x)) as [->|Hne]; [intuition lia|].
  destruct (indexOf l x <? 0) eqn:Hneg.
  - apply Z.ltb_lt in Hneg. split; [lia|]. intros [Heq|Hin]; [contradiction|].
    apply IH in Hin. lia.
  - apply Z.ltb_ge in Hneg. split; [|lia]. intros _. right. apply IH. exact Hneg.
Qed.

Lemma indexOf_nth (l : list A) (x : A) :
  In x l -> nth_error l (Z.to_nat (indexOf l x)) = Some x.
Proof.
  induction l as [|a l IH]; simpl; [intros []|].
  intros Hin. destruct (decide (a = x)) as [->|Hne]; [reflexivity|].
  destruct Hin as [Heq|Hin]; [contradiction|].
  pose proof (proj2 (indexOf_In l x) Hin) as Hpos.
  destruct (indexOf l x <? 0) eqn:Hneg; [apply Z.ltb_lt in Hneg; lia|].
  rewrite Z2Nat.inj_add by lia. rewrite Nat.add_comm. simpl. apply IH, Hin.
Qed.


End IndexFacts.

(** ** The hit test *)

(** C2. For every document ID and point, the hit-test query never rejects:
    it resolves with some list of IDs; when the call to the host fails it
    resolves with the empty list; when the call succeeds it resolves with
    the list the reply holds under the key [layersHit]. *)
Theorem getHitLayerIDs_never_rejects (env : Env) (id : Z) (x y : Q) :
  (exists ids, _getHitLayerIDs env id x y = Resolved ids) /\
  (forall e, playObject env (layerIDsAtPoint id x y) = Rejected e ->
             _getHitLayerIDs env id x y = Resolved []) /\
  (forall reply ids,
      playObject env (layerIDsAtPoint id x y) = Resolved reply ->
      reply !! "layersHit" = Some ids ->
      _getHitLayerIDs env id x y = Resolved ids).
Proof.
  unfold _getHitLayerIDs. split; [|split].
  - destruct (playObject env _) as [reply|e]; simpl; eauto.
  - intros e ->. reflexivity.
  - intros reply ids -> Hids. simpl. rewrite Hids. reflexivity.
Qed.

Lemma getHitLayerIDs_never_rejects_witness :
  _getHitLayerIDs (Sample.env (Rejected (HostError "no such document"))) 7 5 5
    = Resolved [] /\
  _getHitLayerIDs (Sample.env (Sample.hits [2; 1])) 7 5 5 = Resolved [2; 1].
Proof.
  split.
  - apply (proj1 (proj2 (getHitLayerIDs_never_rejects _ 7 5 5))
             (HostError "no such document")).
    reflexivity.
  - apply (proj2 (proj2 (getHitLayerIDs_never_rejects _ 7 5 5))
             {[ "layersHit" := [2; 1] ]} [2; 1]); reflexivity.
Defined.

(** A reply without the key [layersHit] gives the empty list as well. *)
Lemma getHitLayerIDs_no_key (env : Env) (id : Z) (x y : Q) (reply : Descriptor) :
  playObject env (layerIDsAtPoint id x y) = Resolved reply ->
  reply !! "layersHit" = None ->
  _getHitLayerIDs env id x y = Resolved [].
Proof.
  intros Hr Hk. unfold _getHitLayerIDs. rewrite Hr. simpl. rewrite Hk. reflexivity.
Qed.

(** ** Marquee selection *)

(** C7. A marquee selection first dispatches the marquee event with
    [enabled = false]; then an empty list of IDs deselects all layers when
    [add] is false and does nothing more when [add] is true, and a
    non-empty list selects the layers of these IDs, with modifier ["add"]
    when [add] is true and ["select"] otherwise. *)
Theorem marqueeSelect_cases (doc : Document) :
  marqueeSelectCommand doc [] false =
    ([DispatchMarquee false; LogSuperselect "marqueeDeselect";
      TransferDeselectAll (docId doc)], Resolved tt) /\
  marqueeSelectCommand doc [] true = ([DispatchMarquee false], Resolved tt) /\
  (forall (i : Z) (ids : list Z) (add : bool),
     marqueeSelectCommand doc (i :: ids) add =
       ([DispatchMarquee false; LogSuperselect "marqueeSelect";
         TransferSelect (docId doc)
           (LayerList (map (LS.byID (layers doc)) (i :: ids)))
           (Some (if add then "add" else "select"))], Resolved tt)) /\
  (forall (ids : list Z) (add : bool),
     head (Cmd.requests (marqueeSelectCommand doc ids add))
       = Some (DispatchMarquee false)).
Proof.
  split; [reflexivity|]. split; [reflexivity|]. split.
  - intros i ids [|]; reflexivity.
  - intros [|i ids] [|]; reflexivity.
Qed.

(** ** Edit mode *)

Section EditLayer.
Variables (env : Env) (document : Document) (layer : Layer).

Lemma editLayer_background (x y : option Q) :
  isBackground layer = true ->
  editLayerCommand env document layer x y = ([], Resolved tt).
Proof. intros Hb. unfold editLayerCommand. rewrite Hb. reflexivity. Qed.

Lemma editLayer_other_kind (x y : option Q) :
  kind layer <> VECTOR (layerKinds layer) ->
  kind layer <> TEXT (layerKinds layer) ->
  kind layer <> SMARTOBJECT (layerKinds layer) ->
  editLayerCommand env document layer x y = ([], Resolved tt).
Proof.
  intros Hv Ht Hs. unfold editLayerCommand.
  apply Z.eqb_neq in Hv, Ht, Hs. rewrite Hv, Ht, Hs.
  destruct (isBackground layer); [reflexivity|].
  destruct (falsy x || falsy y).
  - destruct (bounds layer); reflexivity.
  - destruct x, y; reflexivity.
Qed.

Lemma falsy_missing (x y : option Q) :
  x = None \/ y = None -> falsy x || falsy y = true.
Proof. intros [-> | ->]; simpl; [reflexivity | apply orb_true_r]. Qed.

Lemma editLayer_no_bounds (x y : option Q) :
  x = None \/ y = None -> bounds layer = None ->
  editLayerCommand env document layer x y = ([], Resolved tt).
Proof.
  intros Hxy Hb. unfold editLayerCommand.
  destruct (isBackground layer); [reflexivity|].
  rewrite (falsy_missing x y Hxy), Hb. reflexivity.
Qed.

Lemma editLayer_center_vector (x y : option Q) (b : Bounds) :
  isBackground layer = false -> x = None \/ y = None -> bounds layer = Some b ->
  kind layer = VECTOR (layerKinds layer) ->
  editLayerCommand env document layer x y =
    ([LogSuperselect "edit_vector"; TransferToolSelect "superselectVector";
      PostLeftMouseDown (px (centerInWindow env b)) (py (centerInWindow env b))],
     Resolved tt).
Proof.
  intros Hbg Hxy Hb Hk. unfold editLayerCommand.
  rewrite Hbg, (falsy_missing x y Hxy), Hb, Hk, Z.eqb_refl. reflexivity.
Qed.

Lemma editLayer_center_text (x y : option Q) (b : Bounds) :
  isBackground layer = false -> x = None \/ y = None -> bounds layer = Some b ->
  kind layer <> VECTOR (layerKinds layer) ->
  kind layer = TEXT (layerKinds layer) ->
  editLayerCommand env document layer x y =
    ([LogSuperselect "edit_text"; TransferToolSelect "superselectType";
      PostLeftMouseDown (px (centerInWindow env b)) (py (centerInWindow env b))],
     Resolved tt).
Proof.
  intros Hbg Hxy Hb Hv Hk. unfold editLayerCommand.
  apply Z.eqb_neq in Hv.
  rewrite Hbg, (falsy_missing x y Hxy), Hb, Hv. rewrite Hk, Z.eqb_refl. reflexivity.
Qed.

End EditLayer.

(** C10. [editLayerCommand] acts only on layers of kind VECTOR, TEXT or
    SMARTOBJECT: on a background layer it resolves with no request whatever
    the kind; on a layer of another kind it resolves with no request;
    called without coordinates it resolves with no request when the layer
    has no bounds, and otherwise posts the mouse event of a shape or text
    layer at the center of the layer's bounds, taken to window
    coordinates. *)
Theorem editLayer_cases (env : Env) (document : Document) (layer : Layer)
    (x y : option Q) :
  (isBackground layer = true ->
   editLayerCommand env document layer x y = ([], Resolved tt)) /\
  (kind layer <> VECTOR (layerKinds layer) ->
   kind layer <> TEXT (layerKinds layer) ->
   kind layer <> SMARTOBJECT (layerKinds layer) ->
   editLayerCommand env document layer x y = ([], Resolved tt)) /\
  (x = None \/ y = None -> bounds layer = None ->
   editLayerCommand env document layer x y = ([], Resolved tt)) /\
  (forall b : Bounds,
     isBackground layer = false -> x = None \/ y = None -> bounds layer = Some b ->
     (kind layer = VECTOR (layerKinds layer) ->
      editLayerCommand env document layer x y =
        ([LogSuperselect "edit_vector"; TransferToolSelect "superselectVector";
          PostLeftMouseDown (px (centerInWindow env b)) (py (centerInWindow env b))],
         Resolved tt)) /\
     (kind layer <> VECTOR (layerKinds layer) ->
      kind layer = TEXT (layerKinds layer) ->
      editLayerCommand env document layer x y =
        ([LogSuperselect "edit_text"; TransferToolSelect "superselectType";
          PostLeftMouseDown (px (centerInWindow env b)) (py (centerInWindow env b))],
         Resolved tt))).
Proof.
  split; [apply editLayer_background|].
  split; [apply editLayer_other_kind|].
  split; [apply editLayer_no_bounds|].
  intros b Hbg Hxy Hb. split.
  - apply editLayer_center_vector; assumption.
  - apply editLayer_center_text; assumption.
Qed.

Lemma editLayer_cases_witness :
  editLayerCommand Sample.quiet (Sample.doc []) Sample.background None None
    = ([], Resolved tt) /\
  editLayerCommand Sample.quiet (Sample.doc []) Sample.pixels (Some 3%Q) (Some 4%Q)
    = ([], Resolved tt) /\
  editLayerCommand Sample.quiet (Sample.doc []) Sample.unbounded None None
    = ([], Resolved tt) /\
  editLayerCommand Sample.quiet (Sample.doc []) Sample.shape None None
    = ([LogSuperselect "edit_vector"; TransferToolSelect "superselectVector";
        PostLeftMouseDown (Qdiv (Qplus 20 0) 2) (Qdiv (Qplus 0 10) 2)], Resolved tt) /\
  editLayerCommand Sample.quiet (Sample.doc []) Sample.caption None None
    = ([LogSuperselect "edit_text"; TransferToolSelect "superselectType";
        PostLeftMouseDown (Qdiv (Qplus 20 0) 2) (Qdiv (Qplus 0 10) 2)], Resolved tt).
Proof.
  split; [|split; [|split; [|split]]].
  - apply (proj1 (editLayer_cases Sample.quiet (Sample.doc []) Sample.background
                    None None)).
    reflexivity.
  - apply (proj1 (proj2 (editLayer_cases Sample.quiet (Sample.doc []) Sample.pixels
                           (Some 3%Q) (Some 4%Q)))); discriminate.
  - apply (proj1 (proj2 (proj2 (editLayer_cases Sample.quiet (Sample.doc [])
                                  Sample.unbounded None None))));
      [left|]; reflexivity.
  - apply (proj1 (proj2 (proj2 (proj2 (editLayer_cases Sample.quiet (Sample.doc [])
                                         Sample.shape None None)))
                    (Sample.box 0 0 10 20) eq_refl (or_introl eq_refl) eq_refl)).
    reflexivity.
  - apply (proj2 (proj2 (proj2 (proj2 (editLayer_cases Sample.quiet (Sample.doc [])
                                         Sample.caption None None)))
                    (Sample.box 0 0 10 20) eq_refl (or_introl eq_refl) eq_refl)).
    + discriminate.
    + reflexivity.
Defined.

(** ** Diving in *)

Section FirstOfFilter.
Context {A : Type}.

Lemma head_filter_split (p : A -> bool) (pre post : list A) (x : A) :
  (forall y, In y pre -> p y = false) -> p x = true ->
  List.filter p (pre ++ x :: post) = x :: List.filter p post.
Proof.
  intros Hpre Hx. rewrite List.filter_app.
  assert (List.filter p pre = []) as -> by (apply filter_nil_iff, Hpre).
  simpl. rewrite Hx. reflexivity.
Qed.

Lemma filter_first_exists (p : A -> bool) (l : list A) :
  (exists y, In y l /\ p y = true) ->
  exists pre x post, l = pre ++ x :: post /\
                     (forall y, In y pre -> p y = false) /\ p x = true.
Proof.
  induction l as [|a l IH]; intros (y & Hy & Hp); [destruct Hy|].
  destruct (p a) eqn:Ha.
  - exists [], a, l. repeat split; auto. intros z [].
  - destruct Hy as [->|Hy]; [congruence|].
    destruct IH as (pre & x & post & -> & Hpre & Hx); [eauto|].
    exists (a :: pre), x, post. repeat split; auto.
    intros z [<-|Hz]; auto.
Qed.
End FirstOfFilter.

Lemma In_childrenOf (layerTree : LS.t) (parents : list Layer) (k : Layer) :
  In k (childrenOf layerTree parents) <->
  exists p, In p parents /\ In k (LS.children layerTree p).
Proof.
  unfold childrenOf. rewrite in_concat. split.
  - intros (ks & Hks & Hk). apply in_map_iff in Hks as (p & <- & Hp). eauto.
  - intros (p & Hp & Hk). exists (LS.children layerTree p). split; [|exact Hk].
    apply in_map. exact Hp.
Qed.

Lemma getDiveableLayers_nil (layerTree : LS.t) (parents : list Layer) :
  _getDiveableLayers layerTree parents = [] <->
  (forall p k, In p parents -> In k (LS.children layerTree p) ->
               superSelectable k = false).
Proof.
  unfold _getDiveableLayers. fold (childrenOf layerTree parents).
  rewrite filter_nil_iff. split.
  - intros Hall p k Hp Hk. apply Hall, In_childrenOf. eauto.
  - intros Hall k Hk. apply In_childrenOf in Hk as (p & Hp & Hk). eauto.
Qed.

(** C6. [diveInCommand] selects the first superSelectable child of the
    selected layers when there is one; when there is none, it enters the
    edit mode of the selected layer if exactly one layer is selected and
    that layer is not locked, and sends no request if that layer is locked
    or if the selection does not have exactly one layer. *)
Theorem diveIn_cases (doc : Document) :
  let layerTree := layers doc in
  let noChild :=
    forall p k, In p (LS.selected layerTree) -> In k (LS.children layerTree p) ->
                superSelectable k = false in
  ((exists p k, In p (LS.selected layerTree) /\ In k (LS.children layerTree p) /\
                superSelectable k = true) ->
   exists pre c post,
     childrenOf layerTree (LS.selected layerTree) = pre ++ c :: post /\
     (forall k, In k pre -> superSelectable k = false) /\
     superSelectable c = true /\
     diveInCommand doc =
       ([LogSuperselect "key_dive_in";
         TransferSelect (docId doc) (OneLayer (Some c)) None], Resolved tt)) /\
  (forall l, noChild -> LS.selected layerTree = [l] -> locked l = false ->
     diveInCommand doc =
       ([LogSuperselect "key_edit";
         TransferEditLayer (docId doc) l None None], Resolved tt)) /\
  (forall l, noChild -> LS.selected layerTree = [l] -> locked l = true ->
     diveInCommand doc = ([], Resolved tt)) /\
  (noChild -> length (LS.selected layerTree) <> 1%nat ->
     diveInCommand doc = ([], Resolved tt)).
Proof.
  intros layerTree noChild. subst noChild. split; [|split; [|split]].
  - intros (p & k & Hp & Hk & Hs).
    destruct (filter_first_exists superSelectable
                (childrenOf layerTree (LS.selected layerTree)))
      as (pre & c & post & Hsplit & Hpre & Hc).
    { exists k. split; [|exact Hs]. apply In_childrenOf. eauto. }
    exists pre, c, post. repeat split; auto.
    unfold diveInCommand, _getDiveableLayers. fold layerTree.
    fold (childrenOf layerTree (LS.selected layerTree)).
    rewrite Hsplit, (head_filter_split _ _ _ _ Hpre Hc). reflexivity.
  - intros l Hno Hsel Hl. apply getDiveableLayers_nil in Hno.
    unfold diveInCommand. fold layerTree. rewrite Hno, Hsel. simpl.
    rewrite Hl. reflexivity.
  - intros l Hno Hsel Hl. apply getDiveableLayers_nil in Hno.
    unfold diveInCommand. fold layerTree. rewrite Hno, Hsel. simpl.
    rewrite Hl. reflexivity.
  - intros Hno Hlen. apply getDiveableLayers_nil in Hno.
    unfold diveInCommand. fold layerTree. rewrite Hno. simpl.
    destruct (Immutable.size (LS.selected layerTree) =? 1) eqn:Hsz; [|reflexivity].
    apply Z.eqb_eq in Hsz. unfold Immutable.size in Hsz. lia.
Qed.

Lemma diveIn_cases_witness :
  (exists pre c post,
     childrenOf (Sample.grouped [Sample.group]) [Sample.group] = pre ++ c :: post /\
     (forall k, In k pre -> superSelectable k = false) /\
     superSelectable c = true /\
     diveInCommand (Sample.groupDoc [Sample.group]) =
       ([LogSuperselect "key_dive_in"; TransferSelect 7 (OneLayer (Some c)) None],
        Resolved tt)) /\
  diveInCommand (Sample.groupDoc [Sample.beside]) =
    ([LogSuperselect "key_edit"; TransferEditLayer 7 Sample.beside None None],
     Resolved tt) /\
  diveInCommand (Sample.groupDoc [Sample.lockedChild]) = ([], Resolved tt) /\
  diveInCommand (Sample.groupDoc [Sample.beside; Sample.freeChild]) = ([], Resolved tt).
Proof.
  split; [|split; [|split]].
  - apply (proj1 (diveIn_cases (Sample.groupDoc [Sample.group]))).
    exists Sample.group, Sample.freeChild. simpl. tauto.
  - apply (proj1 (proj2 (diveIn_cases (Sample.groupDoc [Sample.beside])))
             Sample.beside); [|reflexivity|reflexivity].
    intros p k [<-|[]] Hk. vm_compute in Hk. destruct Hk.
  - apply (proj1 (proj2 (proj2 (diveIn_cases (Sample.groupDoc [Sample.lockedChild]))))
             Sample.lockedChild); [|reflexivity|reflexivity].
    intros p k [<-|[]] Hk. vm_compute in Hk. destruct Hk.
  - apply (proj2 (proj2 (proj2 (diveIn_cases
             (Sample.groupDoc [Sample.beside; Sample.freeChild]))))).
    + intros p k [<-|[<-|[]]] Hk; vm_compute in Hk; destruct Hk.
    + simpl. lia.
Defined.

(** ** Backing out *)

Section BackOut.
Variables (layerTree : LS.t) (noDeselect : bool).

(** One step of the reduction in [_getSelectedLayerParents]. *)
Let step (parents : list Layer) (layer : Layer) : list Layer :=
  let parent := LS.parent layerTree layer in
  if noDeselect && negb (bool_decide (is_Some parent)) then Immutable.add layer parents
  else match parent with
       | Some p => Immutable.add p parents
       | None => parents
       end.

Lemma In_step (parents : list Layer) (l p : Layer) :
  In p (step parents l) <-> In p parents \/ backsOutTo layerTree noDeselect l p.
Proof.
  unfold step, backsOutTo. destruct (LS.parent layerTree l) as [q|] eqn:Hq.
  - replace (bool_decide (is_Some (Some q))) with true
      by (symmetry; apply bool_decide_eq_true; eauto).
    rewrite andb_false_r, In_add. intuition congruence.
  - replace (bool_decide (is_Some (@None Layer))) with false
      by (symmetry; apply bool_decide_eq_false; intros [? ?]; discriminate).
    simpl. rewrite andb_true_r. destruct noDeselect.
    + rewrite In_add. intuition congruence.
    + intuition congruence.
Qed.

Lemma NoDup_step (parents : list Layer) (l : Layer) :
  List.NoDup parents -> List.NoDup (step parents l).
Proof.
  intros Hp. unfold step.
  destruct (noDeselect && _); [apply NoDup_add, Hp|].
  destruct (LS.parent layerTree l); [apply NoDup_add, Hp | exact Hp].
Qed.

Lemma In_fold_step (sel parents : list Layer) (p : Layer) :
  In p (fold_left step sel parents) <->
  In p parents \/ exists l, In l sel /\ backsOutTo layerTree noDeselect l p.
Proof.
  revert parents. induction sel as [|a sel IH]; intros parents; simpl.
  - split; [auto | intros [H|(l & [] & _)]; exact H].
  - rewrite IH, In_step. split.
    + intros [[H|H]|(l & Hl & H)]; eauto.
    + intros [H|(l & [<-|Hl] & H)]; eauto.
Qed.

Lemma NoDup_fold_step (sel parents : list Layer) :
  List.NoDup parents -> List.NoDup (fold_left step sel parents).
Proof.
  revert parents. induction sel as [|a sel IH]; intros parents Hp; simpl;
    [exact Hp | apply IH, NoDup_step, Hp].
Qed.

Lemma In_getSelectedLayerParents (p : Layer) :
  In p (_getSelectedLayerParents layerTree noDeselect) <->
  exists l, In l (LS.selected layerTree) /\ backsOutTo layerTree noDeselect l p.
Proof.
  unfold _getSelectedLayerParents. fold step.
  rewrite In_fold_step. simpl. tauto.
Qed.

Lemma NoDup_getSelectedLayerParents :
  List.NoDup (_getSelectedLayerParents layerTree noDeselect).
Proof.
  unfold _getSelectedLayerParents. fold step.
  apply NoDup_fold_step. constructor.
Qed.

End BackOut.

(** C5, as amended. [backOutCommand] selects exactly the parents of the
    selected layers, each once, together with, when [noDeselect] is set,
    the selected layers that have no parent. It deselects all layers when
    no selected layer has a parent and [noDeselect] is not set. With
    [noDeselect] set, a non-empty selection is always answered by a select
    request (of the selection itself when no selected layer has a parent),
    and no request is sent only when the selection is empty. *)
Theorem backOut_cases (doc : Document) (noDeselect : bool) :
  let layerTree := layers doc in
  let parents := _getSelectedLayerParents layerTree noDeselect in
  let select :=
    ([LogSuperselect "key_backout";
      TransferSelect (docId doc) (LayerList (map Some parents)) None],
     Resolved tt) in
  List.NoDup parents /\
  (forall p, In p parents <->
             exists l, In l (LS.selected layerTree) /\
                       backsOutTo layerTree noDeselect l p) /\
  ((exists l p, In l (LS.selected layerTree) /\ LS.parent layerTree l = Some p) ->
   backOutCommand doc noDeselect = select) /\
  ((forall l, In l (LS.selected layerTree) -> LS.parent layerTree l = None) ->
   noDeselect = false ->
   backOutCommand doc noDeselect =
     ([LogSuperselect "key_backout_deselect"; TransferDeselectAll (docId doc)],
      Resolved tt)) /\
  (LS.selected layerTree <> [] -> noDeselect = true ->
   backOutCommand doc noDeselect = select /\
   ((forall l, In l (LS.selected layerTree) -> LS.parent layerTree l = None) ->
    forall p, In p parents <-> In p (LS.selected layerTree))) /\
  (LS.selected layerTree = [] -> noDeselect = true ->
   backOutCommand doc noDeselect = ([], Resolved tt)).
Proof.
  intros layerTree parents select.
  assert (forall p, In p parents ->
            backOutCommand doc noDeselect = select) as Hselect.
  { intros p Hp. unfold backOutCommand. fold layerTree. fold parents.
    destruct parents; [destruct Hp | reflexivity]. }
  split; [apply NoDup_getSelectedLayerParents|].
  split; [apply In_getSelectedLayerParents|].
  split; [|split; [|split]].
  - intros (l & p & Hl & Hp). apply (Hselect p).
    apply In_getSelectedLayerParents. exists l. split; [exact Hl|]. left. exact Hp.
  - intros Horphans ->.
    assert (parents = []) as Hnil.
    { destruct parents as [|p ps] eqn:E; [reflexivity|]. exfalso.
      assert (In p parents) as Hp by (rewrite E; left; reflexivity).
      apply In_getSelectedLayerParents in Hp as (l & Hl & [Hp|(Habs & _)]).
      - rewrite (Horphans l Hl) in Hp. discriminate.
      - discriminate. }
    unfold backOutCommand. fold layerTree. fold parents. rewrite Hnil. reflexivity.
  - intros Hsel ->. split.
    + destruct (LS.selected layerTree) as [|l sel] eqn:E; [contradiction|].
      destruct (LS.parent layerTree l) as [p|] eqn:Hp.
      * apply (Hselect p), In_getSelectedLayerParents. exists l.
        rewrite E. split; [left; reflexivity | left; exact Hp].
      * apply (Hselect l), In_getSelectedLayerParents. exists l.
        rewrite E. split; [left; reflexivity | right; auto].
    + intros Horphans p. unfold parents. rewrite In_getSelectedLayerParents. split.
      * intros (l & Hl & [Hp|(_ & _ & ->)]); [|exact Hl].
        rewrite (Horphans l Hl) in Hp. discriminate.
      * intros Hp. exists p. split; [exact Hp|]. right. auto.
  - intros Hsel ->. unfold backOutCommand, _getSelectedLayerParents.
    fold layerTree. rewrite Hsel. reflexivity.
Qed.

Lemma backOut_cases_witness :
  backOutCommand (Sample.groupDoc [Sample.freeChild; Sample.otherChild]) false =
    ([LogSuperselect "key_backout";
      TransferSelect 7 (LayerList [Some Sample.group]) None], Resolved tt) /\
  backOutCommand (Sample.groupDoc [Sample.beside]) false =
    ([LogSuperselect "key_backout_deselect"; TransferDeselectAll 7], Resolved tt) /\
  backOutCommand (Sample.groupDoc [Sample.beside; Sample.freeChild]) true =
    ([LogSuperselect "key_backout";
      TransferSelect 7 (LayerList [Some Sample.beside; Some Sample.group]) None],
     Resolved tt) /\
  backOutCommand (Sample.groupDoc []) true = ([], Resolved tt).
Proof.
  split; [|split; [|split]].
  - apply (proj1 (proj2 (proj2
      (backOut_cases (Sample.groupDoc [Sample.freeChild; Sample.otherChild]) false)))).
    exists Sample.freeChild, Sample.group. split; [left|]; reflexivity.
  - apply (proj1 (proj2 (proj2 (proj2
      (backOut_cases (Sample.groupDoc [Sample.beside]) false))))); [|reflexivity].
    intros l [<-|[]]. reflexivity.
  - apply (proj1 (proj2 (proj2 (proj2 (proj2
      (backOut_cases (Sample.groupDoc [Sample.beside; Sample.freeChild]) true))))));
      [discriminate | reflexivity].
  - apply (proj2 (proj2 (proj2 (proj2 (proj2
      (backOut_cases (Sample.groupDoc []) true)))))); reflexivity.
Defined.

(** C5, as first stated, fails: with [noDeselect] set and a single selected
    top-level layer, the layer is selected again, so a request is sent. *)
Lemma backOut_as_described_fails :
  ~ backOut_as_described (Sample.doc [Sample.shape]) true.
Proof.
  intros (_ & _ & Hnone).
  assert (backOutCommand (Sample.doc [Sample.shape]) true = ([], Resolved tt)) as H.
  { apply Hnone; [|reflexivity]. intros l _. reflexivity. }
  vm_compute in H. discriminate H.
Qed.

(** ** Stepping to a sibling *)

Section Get.
Context {A : Type} `{EqDecision A}.
Import Immutable.



End Get.





Example nextSibling_undefined :
  nextSiblingCommand (Sample.doc [Sample.background]) false =
    ([LogSuperselect "key_next_sibling"; TransferSelect 7 (LayerList [None]) None],
     Resolved tt).
Proof. reflexivity. Qed.

(** ** Layers under a point *)

Section Covered.
Variables (env : Env) (layerTree : LS.t) (x y : Q).

Let gather (layerSet : list Layer) (layer : Layer) : list Layer :=
  let bounds :=
    if isArtboard layer then
      let scale := Qmult (zoomCanvasToWindow env 1) (devicePixelRatio env) in
      getNameBadgeBounds env (bounds layer) scale
    else LS.childBounds layerTree layer in
  match bounds with
  | Some b => if boundsContains env b x y then Immutable.add layer layerSet else layerSet
  | None => layerSet
  end.

Lemma gather_covers (layerSet : list Layer) (layer : Layer) :
  gather layerSet layer =
  if coversPoint env layerTree x y layer then Immutable.add layer layerSet
  else layerSet.
Proof.
  unfold gather, coversPoint.
  destruct (if isArtboard layer then _ else _) as [b|]; reflexivity.
Qed.

Lemma In_fold_gather (ls acc : list Layer) (l : Layer) :
  In l (fold_left gather ls acc) <->
  In l acc \/ (In l ls /\ coversPoint env layerTree x y l = true).
Proof.
  revert acc. induction ls as [|a ls IH]; intros acc; simpl; [tauto|].
  rewrite IH, gather_covers.
  destruct (coversPoint env layerTree x y a) eqn:Ha.
  - rewrite In_add. split.
    + intros [[->|H]|[H1 H2]]; auto.
    + intros [H|[[->|H1] H2]]; auto.
  - split.
    + intros [H|[H1 H2]]; auto.
    + intros [H|[[->|H1] H2]]; auto. congruence.
Qed.


Lemma In_getContainingLayerBounds (l : Layer) :
  In l (_getContainingLayerBounds env layerTree x y) <->
  In l (LS.all layerTree) /\ coversPoint env layerTree x y l = true.
Proof.
  unfold _getContainingLayerBounds. fold gather.
  rewrite In_Set_, In_fold_gather. simpl. tauto.
Qed.



End Covered.

(** ** Single click *)

Lemma isOnlySelectedLayer_iff (layerTree : LS.t) (layer : Layer) :
  _isOnlySelectedLayer layerTree layer = true <-> LS.selected layerTree = [layer].
Proof.
  unfold _isOnlySelectedLayer, Immutable.size, Immutable.first.
  destruct (LS.selected layerTree) as [|a [|b sel]].
  - split; intros H; discriminate H.
  - change (negb (Z.of_nat (length [a]) =? 1)) with false. cbv iota.
    rewrite bool_decide_eq_true. simpl. split; congruence.
  - replace (Z.of_nat (length (a :: b :: sel)) =? 1) with false
      by (symmetry; apply Z.eqb_neq; simpl length; lia).
    split; intros H; discriminate H.
Qed.

Section Click.
Variables (env : Env) (doc : Document) (x y : Q) (deep : bool) (hit : list Z).

Let coords := transformWindowToCanvas env x y.
Let layerTree := layers doc.
Let clicked := clickedSelectableLayerIDs env layerTree coords deep hit.

Hypothesis Hhit :
  _getHitLayerIDs env (docId doc) (px coords) (py coords) = Resolved hit.

Ltac run_click :=
  unfold clickCommand; fold coords; rewrite Hhit;
  cbv beta iota delta [mbind Cmd_bind Cmd.bind Cmd.await];
  fold layerTree; fold clicked.

Lemma click_nothing_selected (add : bool) :
  clicked = [] -> LS.selected layerTree = [] ->
  clickCommand env doc x y deep add = ([], Resolved false).
Proof.
  intros Hc Hs. run_click. rewrite Hc, Hs. reflexivity.
Qed.

Lemma click_nothing_deselects (add : bool) :
  clicked = [] -> LS.selected layerTree <> [] ->
  clickCommand env doc x y deep add =
    ([LogSuperselect "deselect_all"; TransferDeselectAll (docId doc)], Resolved false).
Proof.
  intros Hc Hs. run_click. rewrite Hc. apply isEmpty_cons in Hs.
  cbn [Immutable.last map List.last]. rewrite Hs. reflexivity.
Qed.

Section Top.
Variables (t : Z) (top : Layer).
Hypothesis Hlast : Immutable.last clicked = Some t.
Hypothesis Hfound : LS.byID layerTree t = Some top.

Lemma click_selects :
  selected top = false ->
  clickCommand env doc x y deep false =
    ([LogSuperselect (if deep then "click_deep_select" else "click_select");
      TransferSelect (docId doc) (OneLayer (Some top)) (Some "select")],
     Resolved true).
Proof.
  intros Hsel. run_click. rewrite Hlast, Hfound, Hsel. destruct deep; reflexivity.
Qed.

Lemma click_on_selected :
  selected top = true ->
  clickCommand env doc x y deep false = ([], Resolved true).
Proof.
  intros Hsel. run_click. rewrite Hlast, Hfound, Hsel. reflexivity.
Qed.

Lemma click_add_only_selected :
  selected top = true -> LS.selected layerTree = [top] ->
  clickCommand env doc x y deep true =
    ([LogSuperselect "deselect_all"; TransferDeselectAll (docId doc)], Resolved false).
Proof.
  intros Hsel Honly. apply isOnlySelectedLayer_iff in Honly.
  run_click. rewrite Hlast, Hfound, Hsel, Honly. reflexivity.
Qed.

Lemma click_add_deselects :
  selected top = true -> LS.selected layerTree <> [top] ->
  clickCommand env doc x y deep true =
    ([LogSuperselect (if deep then "click_deep_deselect" else "click_deselect");
      TransferSelect (docId doc) (OneLayer (Some top)) (Some "deselect")],
     Resolved true).
Proof.
  intros Hsel Hmore.
  assert (_isOnlySelectedLayer layerTree top = false) as Honly.
  { destruct (_isOnlySelectedLayer layerTree top) eqn:E; [|reflexivity].
    apply isOnlySelectedLayer_iff in E. contradiction. }
  run_click. rewrite Hlast, Hfound, Hsel, Honly. destruct deep; reflexivity.
Qed.

Lemma click_add_adds :
  selected top = false ->
  clickCommand env doc x y deep true =
    ([LogSuperselect (if deep then "click_deep_add" else "click_add");
      TransferSelect (docId doc) (OneLayer (Some top)) (Some "add")],
     Resolved true).
Proof.
  intros Hsel. run_click. rewrite Hlast, Hfound, Hsel. destruct deep; reflexivity.
Qed.

End Top.
End Click.

Section Clicked.
Variables (env : Env) (layerTree : LS.t) (coords : Point) (hit : list Z).

Let covered := _getContainingLayerBounds env layerTree (px coords) (py coords).
Let sorted :=
  Immutable.sortBy (fun id => Immutable.indexOf hit id)
    (Immutable.concat (collection.pluck_id_set covered) hit).
Let clickableIDs :=
  collection.pluck_id (collection.intersection (LS.selectable layerTree) covered).

Lemma In_clickableIDs (t : Z) :
  In t clickableIDs <-> exists l, clickable env layerTree coords l /\ id l = t.
Proof.
  unfold clickableIDs, collection.pluck_id, collection.intersection, clickable.
  rewrite in_map_iff. split.
  - intros (l & Hid & Hl). apply filter_In in Hl as [Hsel Hcov].
    apply contains_In, In_getContainingLayerBounds in Hcov.
    exists l. tauto.
  - intros (l & (Hsel & Hall & Hcov) & Hid). exists l. split; [exact Hid|].
    apply filter_In. split; [exact Hsel|].
    apply contains_In, In_getContainingLayerBounds. tauto.
Qed.

Lemma clickableIDs_sorted (t : Z) : In t clickableIDs -> In t sorted.
Proof.
  intros Ht. apply In_clickableIDs in Ht as (l & (Hsel & Hall & Hcov) & <-).
  unfold sorted. apply In_sortBy, In_concat. left.
  unfold collection.pluck_id_set, Immutable.Set_map. apply In_Set_, in_map.
  apply In_getContainingLayerBounds. tauto.
Qed.

Lemma clicked_shallow :
  clickedSelectableLayerIDs env layerTree coords false hit =
  List.filter (fun id => Immutable.contains clickableIDs id) sorted.
Proof. reflexivity. Qed.

Lemma In_clicked_shallow (t : Z) :
  In t (clickedSelectableLayerIDs env layerTree coords false hit) <->
  exists l, clickable env layerTree coords l /\ id l = t.
Proof.
  rewrite clicked_shallow, filter_In, contains_In, <- In_clickableIDs.
  split; [tauto|]. intros Ht. split; [apply clickableIDs_sorted, Ht | exact Ht].
Qed.

Lemma clicked_shallow_nil :
  clickedSelectableLayerIDs env layerTree coords false hit = [] <->
  forall l, ~ clickable env layerTree coords l.
Proof.
  split.
  - intros Hnil l Hl.
    assert (In (id l) (clickedSelectableLayerIDs env layerTree coords false hit)) as Hin
      by (apply In_clicked_shallow; eauto).
    rewrite Hnil in Hin. destruct Hin.
  - intros Hnone.
    destruct (clickedSelectableLayerIDs env layerTree coords false hit) as [|t ts] eqn:E;
      [reflexivity|].
    exfalso. assert (In t (t :: ts)) as Hin by (left; reflexivity).
    rewrite <- E in Hin. apply In_clicked_shallow in Hin as (l & Hl & _).
    exact (Hnone l Hl).
Qed.

(** The last clicked ID belongs to a selectable layer under the point, and
    no such layer comes later in the hit list. *)
Lemma clicked_shallow_top (t : Z) :
  Immutable.last (clickedSelectableLayerIDs env layerTree coords false hit) = Some t ->
  (exists l, clickable env layerTree coords l /\ id l = t) /\
  (forall l, clickable env layerTree coords l ->
             Immutable.indexOf hit (id l) <= Immutable.indexOf hit t).
Proof.
  intros Hlast. split.
  - apply In_clicked_shallow, last_In, Hlast.
  - intros l Hl. rewrite clicked_shallow in Hlast.
    assert (In (id l) clickableIDs) as Hin by (apply In_clickableIDs; eauto).
    apply (last_filter_sorted (fun id => Immutable.indexOf hit id) _ sorted t
             (sortBy_sorted _ _) Hlast (id l)).
    + apply clickableIDs_sorted, Hin.
    + apply contains_In, Hin.
Qed.

End Clicked.

(** C1, as amended. For a click that is neither deep nor adding, on a tree
    that finds each of its layers by ID: if a selectable layer lies under
    the point, the click is about the top one (a selectable layer under
    the point that no other one follows in the hit list), selects it with
    modifier ["select"] unless it is selected already, in which case no
    request is sent, and resolves [true]; if no selectable layer lies under
    the point, a non-empty selection is dropped by deselecting all layers,
    an empty one sends no request, and the click resolves [false]. *)
Theorem click_plain_cases (env : Env) (doc : Document) (x y : Q) (hit : list Z) :
  let coords := transformWindowToCanvas env x y in
  let layerTree := layers doc in
  _getHitLayerIDs env (docId doc) (px coords) (py coords) = Resolved hit ->
  byID_finds_all layerTree ->
  ((exists l, clickable env layerTree coords l) ->
   exists top,
     clickable env layerTree coords top /\
     (forall l, clickable env layerTree coords l ->
                Immutable.indexOf hit (id l) <= Immutable.indexOf hit (id top)) /\
     (selected top = false ->
      clickCommand env doc x y false false =
        ([LogSuperselect "click_select";
          TransferSelect (docId doc) (OneLayer (Some top)) (Some "select")],
         Resolved true)) /\
     (selected top = true ->
      clickCommand env doc x y false false = ([], Resolved true))) /\
  ((forall l, ~ clickable env layerTree coords l) ->
   LS.selected layerTree <> [] ->
   clickCommand env doc x y false false =
     ([LogSuperselect "deselect_all"; TransferDeselectAll (docId doc)],
      Resolved false)) /\
  ((forall l, ~ clickable env layerTree coords l) ->
   LS.selected layerTree = [] ->
   clickCommand env doc x y false false = ([], Resolved false)).
Proof.
  intros coords layerTree Hhit Hfind. split; [|split].
  - intros (l0 & Hl0).
    destruct (Immutable.last (clickedSelectableLayerIDs env layerTree coords false hit))
      as [t|] eqn:Hlast.
    + destruct (clicked_shallow_top env layerTree coords hit t Hlast)
        as ((top & Htop & Hid) & Hmax).
      assert (LS.byID layerTree t = Some top) as Hfound.
      { rewrite <- Hid. apply Hfind. apply Htop. }
      exists top. split; [exact Htop|]. split; [rewrite Hid; exact Hmax|]. split.
      * apply (click_selects env doc x y false hit Hhit t top Hlast Hfound).
      * apply (click_on_selected env doc x y false hit Hhit t top Hlast Hfound).
    + exfalso. apply last_nil_iff in Hlast.
      exact (proj1 (clicked_shallow_nil env layerTree coords hit) Hlast l0 Hl0).
  - intros Hnone Hsel. apply click_nothing_deselects with (hit := hit); auto.
    apply clicked_shallow_nil, Hnone.
  - intros Hnone Hsel. apply click_nothing_selected with (hit := hit); auto.
    apply clicked_shallow_nil, Hnone.
Qed.

Lemma grouped_byID (sel : list Layer) : byID_finds_all (Sample.grouped sel).
Proof.
  intros l [<-|[<-|[<-|[<-|[<-|[]]]]]]; reflexivity.
Qed.

Lemma click_plain_cases_witness :
  clickCommand (Sample.env (Sample.hits [11; 14])) (Sample.groupDoc []) 5 5 false false =
    ([LogSuperselect "click_select";
      TransferSelect 7 (OneLayer (Some Sample.beside)) (Some "select")],
     Resolved true) /\
  clickCommand (Sample.env (Sample.hits [])) (Sample.groupDoc [Sample.freeChild])
    500 500 false false =
    ([LogSuperselect "deselect_all"; TransferDeselectAll 7], Resolved false) /\
  clickCommand (Sample.env (Sample.hits [])) (Sample.groupDoc []) 500 500 false false =
    ([], Resolved false).
Proof.
  assert (forall sel l, ~ clickable (Sample.env (Sample.hits [])) (Sample.grouped sel)
                          {| px := 500; py := 500 |} l) as Hnone.
  { intros sel l (Hsel & _ & Hcov).
    destruct Hsel as [<-|[<-|[]]]; vm_compute in Hcov; discriminate Hcov. }
  split; [|split].
  - destruct (proj1 (click_plain_cases (Sample.env (Sample.hits [11; 14]))
                       (Sample.groupDoc []) 5 5 [11; 14] eq_refl (grouped_byID [])))
      as (top & (Hsel & _) & Hmax & Hselect & _).
    + exists Sample.beside. split; [left; reflexivity|].
      split; [left; reflexivity | reflexivity].
    + assert (top = Sample.beside) as ->.
      { destruct Hsel as [<-|[<-|[]]]; [reflexivity|]. exfalso.
        assert (clickable (Sample.env (Sample.hits [11; 14])) (Sample.grouped [])
                  {| px := 5; py := 5 |} Sample.beside) as Hb.
        { split; [left; reflexivity|]. split; [left; reflexivity | reflexivity]. }
        specialize (Hmax Sample.beside Hb). vm_compute in Hmax. apply Hmax. reflexivity. }
      apply Hselect. reflexivity.
  - apply (proj1 (proj2 (click_plain_cases (Sample.env (Sample.hits []))
                           (Sample.groupDoc [Sample.freeChild]) 500 500 [] eq_refl
                           (grouped_byID _)))); [apply Hnone | discriminate].
  - apply (proj2 (proj2 (click_plain_cases (Sample.env (Sample.hits []))
                           (Sample.groupDoc []) 500 500 [] eq_refl
                           (grouped_byID _)))); [apply Hnone | reflexivity].
Defined.

(** C1, as first stated, fails: a click on a layer that is selected already
    sends no select request. *)
Lemma click_as_described_fails :
  ~ click_as_described (Sample.env (Sample.hits [1])) (Sample.doc [Sample.shape])
      5 5 false.
Proof.
  intros Hclaim. destruct (Hclaim [1] eq_refl) as (Hselect & _).
  destruct Hselect as (top & _ & _ & Hin & _).
  - exists Sample.shape. split; [left; reflexivity|].
    split; [left; reflexivity | reflexivity].
  - vm_compute in Hin. exact Hin.
Qed.

(** A deep click is about the leaves of the tree, not about its selectable
    layers: here it selects a child of the group, which is not selectable. *)
Example click_deep_selects_leaf :
  clickCommand (Sample.env (Sample.hits [12])) (Sample.groupDoc []) 5 5 true false =
    ([LogSuperselect "click_deep_select";
      TransferSelect 7 (OneLayer (Some Sample.freeChild)) (Some "select")],
     Resolved true) /\
  ~ In Sample.freeChild (LS.selectable (Sample.grouped [])).
Proof.
  split; [reflexivity|]. intros [H|[H|[]]]; discriminate H.
Qed.

(** C8. A click without the add modifier whose top clicked layer is
    selected already sends no request at all, so no selection request, and
    resolves [true]. *)
Theorem click_on_selected_is_noop (env : Env) (doc : Document) (x y : Q)
    (deep : bool) (hit : list Z) (t : Z) (top : Layer) :
  let coords := transformWindowToCanvas env x y in
  _getHitLayerIDs env (docId doc) (px coords) (py coords) = Resolved hit ->
  Immutable.last (clickedSelectableLayerIDs env (layers doc) coords deep hit) = Some t ->
  LS.byID (layers doc) t = Some top ->
  selected top = true ->
  clickCommand env doc x y deep false = ([], Resolved true).
Proof.
  intros coords Hhit Hlast Hfound Hsel.
  exact (click_on_selected env doc x y deep hit Hhit t top Hlast Hfound Hsel).
Qed.

Lemma click_on_selected_is_noop_witness :
  clickCommand (Sample.env (Sample.hits [2; 1]))
    (Sample.doc [Sample.shape; Sample.caption]) 5 5 false false = ([], Resolved true) /\
  clickCommand (Sample.env (Sample.hits [2; 1]))
    (Sample.doc [Sample.shape; Sample.caption]) 5 5 true false = ([], Resolved true).
Proof.
  split.
  - apply (click_on_selected_is_noop (Sample.env (Sample.hits [2; 1]))
             (Sample.doc [Sample.shape; Sample.caption]) 5 5 false [2; 1] 1 Sample.shape);
      reflexivity.
  - apply (click_on_selected_is_noop (Sample.env (Sample.hits [2; 1]))
             (Sample.doc [Sample.shape; Sample.caption]) 5 5 true [2; 1] 2 Sample.caption);
      reflexivity.
Defined.

(** C3. A click with the add modifier on a top clicked layer that is
    selected deselects all layers and resolves [false] when that layer is
    the whole selection, and deselects that layer alone (modifier
    ["deselect"]) when the selection holds more; on a top clicked layer that
    is not selected it adds the layer to the selection (modifier ["add"]). *)
Theorem click_add_cases (env : Env) (doc : Document) (x y : Q)
    (deep : bool) (hit : list Z) (t : Z) (top : Layer) :
  let coords := transformWindowToCanvas env x y in
  _getHitLayerIDs env (docId doc) (px coords) (py coords) = Resolved hit ->
  Immutable.last (clickedSelectableLayerIDs env (layers doc) coords deep hit) = Some t ->
  LS.byID (layers doc) t = Some top ->
  (selected top = true -> LS.selected (layers doc) = [top] ->
   clickCommand env doc x y deep true =
     ([LogSuperselect "deselect_all"; TransferDeselectAll (docId doc)],
      Resolved false)) /\
  (selected top = true -> LS.selected (layers doc) <> [top] ->
   clickCommand env doc x y deep true =
     ([LogSuperselect (if deep then "click_deep_deselect" else "click_deselect");
       TransferSelect (docId doc) (OneLayer (Some top)) (Some "deselect")],
      Resolved true)) /\
  (selected top = false ->
   clickCommand env doc x y deep true =
     ([LogSuperselect (if deep then "click_deep_add" else "click_add");
       TransferSelect (docId doc) (OneLayer (Some top)) (Some "add")],
      Resolved true)).
Proof.
  intros coords Hhit Hlast Hfound. split; [|split].
  - apply (click_add_only_selected env doc x y deep hit Hhit t top Hlast Hfound).
  - apply (click_add_deselects env doc x y deep hit Hhit t top Hlast Hfound).
  - apply (click_add_adds env doc x y deep hit Hhit t top Hlast Hfound).
Qed.

Lemma click_add_cases_witness :
  clickCommand (Sample.env (Sample.hits [1])) (Sample.doc [Sample.shape]) 5 5 false true =
    ([LogSuperselect "deselect_all"; TransferDeselectAll 7], Resolved false) /\
  clickCommand (Sample.env (Sample.hits [1; 2]))
    (Sample.doc [Sample.shape; Sample.caption]) 5 5 false true =
    ([LogSuperselect "click_deselect";
      TransferSelect 7 (OneLayer (Some Sample.caption)) (Some "deselect")],
     Resolved true) /\
  clickCommand (Sample.env (Sample.hits [14])) (Sample.groupDoc [Sample.group])
    5 5 false true =
    ([LogSuperselect "click_add";
      TransferSelect 7 (OneLayer (Some Sample.beside)) (Some "add")],
     Resolved true).
Proof.
  split; [|split].
  - apply (proj1 (click_add_cases (Sample.env (Sample.hits [1]))
                    (Sample.doc [Sample.shape]) 5 5 false [1] 1 Sample.shape
                    eq_refl eq_refl eq_refl)); reflexivity.
  - apply (proj1 (proj2 (click_add_cases (Sample.env (Sample.hits [1; 2]))
                    (Sample.doc [Sample.shape; Sample.caption]) 5 5 false [1; 2] 2
                    Sample.caption eq_refl eq_refl eq_refl)));
      [reflexivity | discriminate].
  - apply (proj2 (proj2 (click_add_cases (Sample.env (Sample.hits [14]))
                    (Sample.groupDoc [Sample.group]) 5 5 false [14] 14
                    Sample.beside eq_refl eq_refl eq_refl))).
    reflexivity.
Defined.

(** ** Double click *)

Section ListExtras.
Context {A B : Type}.


Lemma find_nothing (p : A -> bool) (l : list A) :
  (forall a, In a l -> p a = false) -> List.find p l = None.
Proof.
  induction l as [|a l IH]; intros Hall; simpl; [reflexivity|].
  rewrite (Hall a (or_introl eq_refl)). apply IH.
  intros b Hb. apply Hall. right. exact Hb.
Qed.



End ListExtras.

Lemma last_map {A B : Type} (f : A -> B) (l : list A) (x : A) :
  Immutable.last l = Some x -> Immutable.last (map f l) = Some (f x).
Proof.
  intros Hl. apply last_Some_iff in Hl as (l' & ->).
  rewrite map_app. simpl. apply last_snoc.
Qed.

Section Below.
Variable layerTree : LS.t.

Let collect (layerSet : list Layer) (layer : Layer) : list Layer :=
  fold_left (fun layerSet ancestor => Immutable.add ancestor layerSet)
    (LS.ancestors layerTree layer) layerSet.

Let belowb (ancestors : list Layer) (layer : Layer) : bool :=
  negb (locked layer) &&
  negb (kind layer =? GROUPEND (layerKinds layer)) &&
  negb (Immutable.contains ancestors layer).

Lemma In_fold_collect (sel acc : list Layer) (a : Layer) :
  In a (fold_left collect sel acc) <->
  In a acc \/ exists s, In s sel /\ In a (LS.ancestors layerTree s).
Proof.
  revert acc. induction sel as [|s sel IH]; intros acc; simpl.
  - split; [auto | intros [H|(s & [] & _)]; exact H].
  - rewrite IH.
    pose proof (In_concat acc (LS.ancestors layerTree s) a) as Hc.
    unfold Immutable.concat in Hc. unfold collect at 1. rewrite Hc. split.
    + intros [[H|H]|(s' & Hs' & H)]; eauto.
    + intros [H|(s' & [<-|Hs'] & H)]; eauto.
Qed.

Lemma belowb_fallsBelow (l : Layer) :
  belowb (fold_left collect (LS.selected layerTree) []) l = true <->
  fallsBelow layerTree l.
Proof.
  unfold belowb, fallsBelow.
  rewrite !andb_true_iff, !negb_true_iff, Z.eqb_neq, contains_not_In, In_fold_collect.
  simpl. split.
  - intros [[H1 H2] H3]. repeat split; auto. intros s Hs Ha. apply H3. eauto.
  - intros (H1 & H2 & H3). repeat split; auto.
    intros [[]|(s & Hs & Ha)]. exact (H3 s Hs Ha).
Qed.

Lemma getLayersBelow_filter (coveredLayers : list Layer) :
  _getLayersBelowCurrentSelection layerTree coveredLayers =
  Immutable.Set_
    (map id (List.filter (belowb (fold_left collect (LS.selected layerTree) []))
               coveredLayers)).
Proof. reflexivity. Qed.



End Below.

Section DoubleClick.
Variables (env : Env) (doc : Document) (x y : Q) (hit : list Z).

Let coords := transformWindowToCanvas env x y.
Let layerTree := layers doc.
Let covered := _getContainingLayerBounds env layerTree (px coords) (py coords).
Let selectableLayers := _getDiveableLayers layerTree (considered layerTree).

Hypothesis Hhit :
  _getHitLayerIDs env (docId doc) (px coords) (py coords) = Resolved hit.

Ltac run_double_click :=
  unfold doubleClickCommand; fold coords; rewrite Hhit;
  cbv beta iota zeta delta [mbind Cmd_bind Cmd.bind Cmd.await];
  fold layerTree; fold (considered layerTree); fold selectableLayers; fold covered.

Lemma selectableLayers_nil : selectableLayers = [] <-> ~ hasDiveableChild layerTree.
Proof.
  unfold selectableLayers, hasDiveableChild. rewrite getDiveableLayers_nil. split.
  - intros Hall (p & k & Hp & Hk & Hs). rewrite (Hall p k Hp Hk) in Hs. discriminate.
  - intros Hno p k Hp Hk. destruct (superSelectable k) eqn:E; [|reflexivity].
    exfalso. apply Hno. eauto.
Qed.




Lemma doubleClick_edit_nothing :
  ~ hasDiveableChild layerTree ->
  (forall l, In l (LS.selected layerTree) -> ~ In (id l) hit) ->
  doubleClickCommand env doc x y = ([], Resolved tt).
Proof.
  intros Hno Hsel. apply selectableLayers_nil in Hno.
  run_double_click. rewrite Hno. cbn [Immutable.isEmpty].
  rewrite find_nothing; [reflexivity|].
  intros l Hl. apply contains_not_In, Hsel, Hl.
Qed.





End DoubleClick.



Lemma grouped_leaf_no_child :
  ~ hasDiveableChild (Sample.grouped [Sample.freeChild]).
Proof.
  intros (p & k & Hp & Hk & _). destruct Hp as [<-|[]]. exact Hk.
Qed.




(** ** Further properties of the helpers *)


Lemma getHitLayerIDs_failure (env : Env) (id : Z) (x y : Q) (e : Error) :
  playObject env (layerIDsAtPoint id x y) = Rejected e ->
  _getHitLayerIDs env id x y = Resolved [].
Proof. intros He. unfold _getHitLayerIDs. rewrite He. reflexivity. Qed.



(** X2. A layer one can dive to is a superSelectable child of one of the
    given parents and nothing else; without parents there is none. *)
Theorem getDiveableLayers_spec (layerTree : LS.t) (parentLayers : list Layer) :
  (forall l, In l (_getDiveableLayers layerTree parentLayers) <->
             superSelectable l = true /\
             exists p, In p parentLayers /\ In l (LS.children layerTree p)) /\
  _getDiveableLayers layerTree [] = [].
Proof.
  split; [|reflexivity].
  intros l. unfold _getDiveableLayers. fold (childrenOf layerTree parentLayers).
  rewrite filter_In, In_childrenOf. tauto.
Qed.

(** X3. The IDs a double click can fall down to are those of the covered
    layers that are unlocked, are no end marker of a group and are no
    ancestor of a selected layer; no ID is listed twice. *)
Theorem getLayersBelowCurrentSelection_spec (layerTree : LS.t)
    (coveredLayers : list Layer) :
  List.NoDup (_getLayersBelowCurrentSelection layerTree coveredLayers) /\
  (forall u, In u (_getLayersBelowCurrentSelection layerTree coveredLayers) <->
             exists l, In l coveredLayers /\ id l = u /\ fallsBelow layerTree l).
Proof.
  rewrite getLayersBelow_filter. split; [apply NoDup_Set_|].
  intros u. rewrite In_Set_, in_map_iff. split.
  - intros (l & Hid & Hl). apply filter_In in Hl as [Hl Hb].
    apply belowb_fallsBelow in Hb. eauto.
  - intros (l & Hl & Hid & Hb). exists l. split; [exact Hid|].
    apply filter_In. split; [exact Hl | apply belowb_fallsBelow, Hb].
Qed.

(** X4. A layer is the only selected layer exactly when the selection of
    the tree is that one layer: an empty selection, a larger one, or one
    other layer all answer [false]. *)
Theorem isOnlySelectedLayer_spec (layerTree : LS.t) (layer : Layer) :
  (_isOnlySelectedLayer layerTree layer = true <->
   LS.selected layerTree = [layer]) /\
  (LS.selected layerTree = [] -> _isOnlySelectedLayer layerTree layer = false) /\
  (forall a b rest, LS.selected layerTree = a :: b :: rest ->
                    _isOnlySelectedLayer layerTree layer = false).
Proof.
  split; [apply isOnlySelectedLayer_iff|]. split.
  - intros Hs. destruct (_isOnlySelectedLayer layerTree layer) eqn:E; [|reflexivity].
    apply isOnlySelectedLayer_iff in E. congruence.
  - intros a b rest Hs.
    destruct (_isOnlySelectedLayer layerTree layer) eqn:E; [|reflexivity].
    apply isOnlySelectedLayer_iff in E. congruence.
Qed.

Lemma isOnlySelectedLayer_spec_witness :
  _isOnlySelectedLayer (Sample.grouped []) Sample.group = false /\
  _isOnlySelectedLayer (Sample.grouped [Sample.group; Sample.beside]) Sample.group
    = false.
Proof.
  split.
  - apply (proj1 (proj2 (isOnlySelectedLayer_spec (Sample.grouped []) Sample.group))).
    reflexivity.
  - apply (proj2 (proj2 (isOnlySelectedLayer_spec
                           (Sample.grouped [Sample.group; Sample.beside])
                           Sample.group)) Sample.group Sample.beside []).
    reflexivity.
Defined.

(** X5. When the host answers the hit test with a reply that has no key
    [layersHit], the query resolves with the empty list. *)
Theorem getHitLayerIDs_missing_key (env : Env) (id : Z) (x y : Q)
    (reply : Descriptor) :
  playObject env (layerIDsAtPoint id x y) = Resolved reply ->
  reply !! "layersHit" = None ->
  _getHitLayerIDs env id x y = Resolved [].
Proof. apply getHitLayerIDs_no_key. Qed.

Lemma getHitLayerIDs_missing_key_witness :
  _getHitLayerIDs (Sample.env (Resolved {[ "layers" := [3] ]})) 7 5 5 = Resolved [].
Proof.
  apply (getHitLayerIDs_missing_key _ 7 5 5 {[ "layers" := [3] ]}); reflexivity.
Defined.

(** ** Further properties of the single click *)

Section ClickOutcome.
Variables (env : Env) (doc : Document) (x y : Q) (deep add : bool) (hit : list Z).

Let coords := transformWindowToCanvas env x y.
Let layerTree := layers doc.
Let clicked := clickedSelectableLayerIDs env layerTree coords deep hit.
Let click := clickCommand env doc x y deep add.

Hypothesis Hhit :
  _getHitLayerIDs env (docId doc) (px coords) (py coords) = Resolved hit.

Ltac click_cases :=
  unfold click, clickCommand; fold coords; rewrite Hhit;
  cbv beta iota delta [mbind Cmd_bind Cmd.bind Cmd.await];
  fold layerTree; fold clicked; clearbody clicked;
  destruct (Immutable.last clicked) as [t|] eqn:Hlast;
  [ destruct (LS.byID layerTree t) as [top|] eqn:Hfound;
    [ destruct add, (selected top), (_isOnlySelectedLayer layerTree top), deep
    | ]
  | destruct (Immutable.isEmpty (LS.selected layerTree)) eqn:Hempty ];
  cbn.

Lemma click_false_iff :
  Cmd.settled click = Resolved false <->
  In (TransferDeselectAll (docId doc)) (Cmd.requests click) \/
  (clicked = [] /\ LS.selected layerTree = []).
Proof.
  click_cases;
    try (split; [intros H; discriminate H
                | intros [[H|[H|[]]]|[H _]];
                  [discriminate H | discriminate H |
                   rewrite H in Hlast; discriminate Hlast]]);
    try (split; [intros H; discriminate H
                | intros [[]|[H _]]; rewrite H in Hlast; discriminate Hlast]).
  all: split; [intros _ | reflexivity].
  all: try (left; right; left; reflexivity).
  right. apply last_nil_iff in Hlast. apply isEmpty_nil in Hempty. auto.
Qed.

Lemma click_true_keeps :
  Cmd.settled click = Resolved true ->
  forall d, ~ In (TransferDeselectAll d) (Cmd.requests click).
Proof.
  click_cases; intros H d Hin; try discriminate H;
    repeat match type of Hin with
           | _ \/ _ => destruct Hin as [Hin|Hin]
           | False => destruct Hin
           | _ = _ => discriminate Hin
           end.
Qed.



Lemma click_few_requests :
  (length (List.filter isSelectionAction (Cmd.requests click)) <= 1)%nat /\
  (forall d target m,
     In (TransferSelect d target m) (Cmd.requests click) ->
     d = docId doc /\ exists t top,
       Immutable.last clicked = Some t /\ LS.byID layerTree t = Some top /\
       target = OneLayer (Some top)).
Proof.
  click_cases; (split; [lia|]); intros d target m Hin;
    repeat match type of Hin with
           | _ \/ _ => destruct Hin as [Hin|Hin]
           | False => destruct Hin
           | _ = _ => first [discriminate Hin
                            | injection Hin as <- <- <-; split; eauto]
           end.
Qed.

End ClickOutcome.

(** X6. Whatever the modifiers, a click resolves [false] exactly when it
    asked to deselect all layers or found nothing under the point while
    nothing was selected; a click that resolves [true] never asks to
    deselect all layers. *)
Theorem click_settlement (env : Env) (doc : Document) (x y : Q) (deep add : bool)
    (hit : list Z) :
  let coords := transformWindowToCanvas env x y in
  let click := clickCommand env doc x y deep add in
  _getHitLayerIDs env (docId doc) (px coords) (py coords) = Resolved hit ->
  (Cmd.settled click = Resolved false <->
   In (TransferDeselectAll (docId doc)) (Cmd.requests click) \/
   (clickedSelectableLayerIDs env (layers doc) coords deep hit = [] /\
    LS.selected (layers doc) = [])) /\
  (Cmd.settled click = Resolved true ->
   forall d, ~ In (TransferDeselectAll d) (Cmd.requests click)).
Proof.
  intros coords click Hhit. split.
  - apply (click_false_iff env doc x y deep add hit Hhit).
  - apply (click_true_keeps env doc x y deep add hit Hhit).
Qed.

Lemma click_settlement_witness :
  Cmd.settled (clickCommand (Sample.env (Sample.hits [1]))
                 (Sample.doc [Sample.shape]) 5 5 false true) = Resolved false /\
  ~ In (TransferDeselectAll 7)
       (Cmd.requests (clickCommand (Sample.env (Sample.hits [14]))
                        (Sample.groupDoc [Sample.group]) 5 5 false true)).
Proof.
  split.
  - apply (proj1 (click_settlement (Sample.env (Sample.hits [1]))
                    (Sample.doc [Sample.shape]) 5 5 false true [1] eq_refl)).
    left. right. left. reflexivity.
  - apply (proj2 (click_settlement (Sample.env (Sample.hits [14]))
                    (Sample.groupDoc [Sample.group]) 5 5 false true [14] eq_refl)).
    reflexivity.
Defined.



(** X8. A click sends at most one selection request, and a select request
    it sends is for this document and for the single layer the tree gives
    for the top clicked ID. *)
Theorem click_one_selection_request (env : Env) (doc : Document) (x y : Q)
    (deep add : bool) (hit : list Z) :
  let coords := transformWindowToCanvas env x y in
  let click := clickCommand env doc x y deep add in
  _getHitLayerIDs env (docId doc) (px coords) (py coords) = Resolved hit ->
  (length (List.filter isSelectionAction (Cmd.requests click)) <= 1)%nat /\
  (forall d target m,
     In (TransferSelect d target m) (Cmd.requests click) ->
     d = docId doc /\
     exists t top,
       Immutable.last (clickedSelectableLayerIDs env (layers doc) coords deep hit)
         = Some t /\
       LS.byID (layers doc) t = Some top /\ target = OneLayer (Some top)).
Proof.
  intros coords click Hhit.
  apply (click_few_requests env doc x y deep add hit Hhit).
Qed.

Lemma click_one_selection_request_witness :
  Nat.le
    (length (List.filter isSelectionAction
               (Cmd.requests (clickCommand (Sample.env (Sample.hits [1; 2]))
                                (Sample.doc [Sample.shape; Sample.caption])
                                5 5 true true))))
    1%nat.
Proof.
  apply (proj1 (click_one_selection_request (Sample.env (Sample.hits [1; 2]))
                  (Sample.doc [Sample.shape; Sample.caption]) 5 5 true true [1; 2]
                  eq_refl)).
Defined.

(** ** Deep clicks *)

Lemma hitLayerMap_has (ids : list Z) (m : gmap Z bool) (k : Z) :
  hasOwnProperty
    (fold_left (fun layerMap id => <[id := true]> layerMap) ids m) k = true <->
  In k ids \/ is_Some (m !! k).
Proof.
  revert m. induction ids as [|a ids IH]; intros m; simpl.
  - unfold hasOwnProperty. rewrite bool_decide_eq_true. tauto.
  - rewrite IH, lookup_insert_is_Some. split.
    + intros [H|[H|[_ H]]]; auto.
    + intros [[H|H]|H]; auto.
      destruct (decide (a = k)); auto.
Qed.

Section DeepClick.
Variables (env : Env) (layerTree : LS.t) (coords : Point).

Let covered := _getContainingLayerBounds env layerTree (px coords) (py coords).

Lemma In_coveredLayerIDs (hit : list Z) (k : Z) :
  In k (Immutable.sortBy (fun id => Immutable.indexOf hit id)
          (Immutable.concat (collection.pluck_id_set covered) hit)) <->
  In k hit \/
  exists c, In c (LS.all layerTree) /\
            coversPoint env layerTree (px coords) (py coords) c = true /\ id c = k.
Proof.
  rewrite In_sortBy, In_concat.
  unfold collection.pluck_id_set, Immutable.Set_map. rewrite In_Set_, in_map_iff.
  split.
  - intros [(c & Hid & Hc)|H]; [right|left; exact H].
    apply In_getContainingLayerBounds in Hc. exists c. tauto.
  - intros [H|(c & Hall & Hcov & Hid)]; [right; exact H|left].
    exists c. split; [exact Hid|]. apply In_getContainingLayerBounds. tauto.
Qed.

Lemma deep_leaf_test (hit : list Z) (l : Layer) :
  hasOwnProperty
    (fold_left (fun layerMap id => <[id := true]> layerMap)
       (Immutable.sortBy (fun id => Immutable.indexOf hit id)
          (Immutable.concat (collection.pluck_id_set covered) hit))
       (∅ : gmap Z bool)) (id l) = true <->
  leafUnderClick env layerTree coords hit l.
Proof.
  rewrite hitLayerMap_has, In_coveredLayerIDs, lookup_empty.
  unfold leafUnderClick. split; [|tauto].
  intros [H|[v Hv]]; [exact H | discriminate Hv].
Qed.

Lemma clicked_deep (hit : list Z) :
  clickedSelectableLayerIDs env layerTree coords true hit =
  map id
    (List.filter
       (fun layer =>
          hasOwnProperty
            (fold_left (fun layerMap id => <[id := true]> layerMap)
               (Immutable.sortBy (fun id => Immutable.indexOf hit id)
                  (Immutable.concat (collection.pluck_id_set covered) hit))
               (∅ : gmap Z bool)) (id layer))
       (LS.leaves layerTree)).
Proof. reflexivity. Qed.

End DeepClick.

(** X9. For a deep click the clicked IDs are those of the leaves whose ID
    was hit or is the ID of a layer under the point, in the order of the
    leaves: the top one is the last such leaf, and the order of the hit
    list plays no part. *)
Theorem deep_click_candidates (env : Env) (layerTree : LS.t) (coords : Point)
    (hit : list Z) :
  (forall t, In t (clickedSelectableLayerIDs env layerTree coords true hit) <->
             exists l, In l (LS.leaves layerTree) /\ id l = t /\
                       leafUnderClick env layerTree coords hit l) /\
  (forall pre l post,
     LS.leaves layerTree = pre ++ l :: post ->
     leafUnderClick env layerTree coords hit l ->
     (forall l', In l' post -> ~ leafUnderClick env layerTree coords hit l') ->
     Immutable.last (clickedSelectableLayerIDs env layerTree coords true hit)
       = Some (id l)) /\
  (forall hit', (forall u, In u hit <-> In u hit') ->
     clickedSelectableLayerIDs env layerTree coords true hit' =
     clickedSelectableLayerIDs env layerTree coords true hit).
Proof.
  split; [|split].
  - intros t. rewrite clicked_deep, in_map_iff. split.
    + intros (l & Hid & Hl). apply filter_In in Hl as [Hl Hq].
      apply deep_leaf_test in Hq. eauto.
    + intros (l & Hl & Hid & Hq). exists l. split; [exact Hid|].
      apply filter_In. split; [exact Hl | apply deep_leaf_test, Hq].
  - intros pre l post Hleaves Hl Hpost. rewrite clicked_deep.
    apply last_map, last_filter_split. exists pre, post.
    split; [exact Hleaves|]. split; [apply deep_leaf_test, Hl|].
    intros l' Hl'. destruct (hasOwnProperty _ (id l')) eqn:E; [|reflexivity].
    apply deep_leaf_test in E. exfalso. exact (Hpost l' Hl' E).
  - intros hit' Hsame. rewrite !clicked_deep. f_equal.
    apply filter_ext. intros l. apply Bool.eq_iff_eq_true.
    rewrite !deep_leaf_test. unfold leafUnderClick. rewrite (Hsame (id l)). tauto.
Qed.

Lemma deep_click_candidates_witness :
  Immutable.last
    (clickedSelectableLayerIDs (Sample.env (Sample.hits [12; 14]))
       (Sample.grouped []) {| px := 5; py := 5 |} true [12; 14]) = Some 12 /\
  clickedSelectableLayerIDs (Sample.env (Sample.hits [12; 14]))
    (Sample.grouped []) {| px := 5; py := 5 |} true [14; 12] =
  clickedSelectableLayerIDs (Sample.env (Sample.hits [12; 14]))
    (Sample.grouped []) {| px := 5; py := 5 |} true [12; 14].
Proof.
  split.
  - apply (proj1 (proj2 (deep_click_candidates (Sample.env (Sample.hits [12; 14]))
                           (Sample.grouped []) {| px := 5; py := 5 |} [12; 14]))
             [Sample.beside; Sample.lockedChild] Sample.freeChild
             [Sample.otherChild]).
    + reflexivity.
    + left. left. reflexivity.
    + intros l' [<-|[]] [Hhit|(c & Hall & Hcov & Hid)].
      * destruct Hhit as [H|[H|[]]]; discriminate H.
      * destruct Hall as [<-|[<-|[<-|[<-|[<-|[]]]]]];
          first [discriminate Hid | vm_compute in Hcov; discriminate Hcov].
  - apply (proj2 (proj2 (deep_click_candidates (Sample.env (Sample.hits [12; 14]))
                           (Sample.grouped []) {| px := 5; py := 5 |} [12; 14]))).
    intros u. simpl. tauto.
Defined.

(** ** Clicks the hit test says nothing about *)

Section Stability.
Context {A : Type} (key : A -> Z).
Import Immutable.



End Stability.

Section ListMore.
Context {A B : Type}.




End ListMore.


Lemma indexOf_missing {A : Type} `{EqDecision A} (l : list A) (x : A) :
  ~ In x l -> Immutable.indexOf l x = -1.
Proof.
  intros Hx. destruct (indexOf_range l x) as [H|H]; [exact H|].
  exfalso. apply Hx, indexOf_In. lia.
Qed.

Section Unhit.
Variables (env : Env) (layerTree : LS.t) (coords : Point) (hit : list Z).

Let covered := _getContainingLayerBounds env layerTree (px coords) (py coords).
Let clickableIDs :=
  collection.pluck_id (collection.intersection (LS.selectable layerTree) covered).

Hypothesis Hids : List.NoDup (map id (LS.all layerTree)).
Hypothesis Hunhit : forall l, clickable env layerTree coords l -> ~ In (id l) hit.





End Unhit.



(** ** Further properties of the edit mode *)

(** X11. For a smart object that is no background, called with usable
    coordinates or with bounds to take the center of, [editLayerCommand]
    asks the host to open the contents and then to update the document;
    when the host refuses (the user cancels) the refusal is swallowed: the
    command still resolves, and no update is asked for. *)
Theorem editLayer_smart_object (env : Env) (document : Document) (layer : Layer)
    (x y : option Q) :
  isBackground layer = false ->
  kind layer <> VECTOR (layerKinds layer) ->
  kind layer <> TEXT (layerKinds layer) ->
  kind layer = SMARTOBJECT (layerKinds layer) ->
  (falsy x || falsy y = true -> is_Some (bounds layer)) ->
  (forall u, play env "placedLayerEditContents" = Resolved u ->
     editLayerCommand env document layer x y =
       ([LogSuperselect "edit_smart_object";
         DescriptorPlay "placedLayerEditContents";
         TransferUpdateDocument], Resolved tt)) /\
  (forall e, play env "placedLayerEditContents" = Rejected e ->
     editLayerCommand env document layer x y =
       ([LogSuperselect "edit_smart_object";
         DescriptorPlay "placedLayerEditContents"], Resolved tt)).
Proof.
  intros Hbg Hv Ht Hs Hcoords.
  apply Z.eqb_neq in Hv, Ht. apply Z.eqb_eq in Hs.
  assert (forall p : Promise unit, play env "placedLayerEditContents" = p ->
            editLayerCommand env document layer x y =
              ([LogSuperselect "edit_smart_object";
                DescriptorPlay "placedLayerEditContents"]
               ++ match p with Resolved _ => [TransferUpdateDocument] | _ => [] end,
               Resolved tt)) as Hrun.
  { intros p Hp. unfold editLayerCommand. rewrite Hbg, Hv, Ht, Hs.
    destruct (falsy x || falsy y) eqn:Hf.
    - destruct (Hcoords eq_refl) as [b Hb]. rewrite Hb.
      cbv beta iota zeta delta [mbind Cmd_bind Cmd.bind Cmd.bind2 Cmd.await Cmd.emit
                                  _logSuperselect].
      rewrite Hp. destruct p; reflexivity.
    - destruct x as [qx|]; [|discriminate Hf].
      destruct y as [qy|]; [|rewrite orb_true_r in Hf; discriminate Hf].
      cbv beta iota zeta delta [mbind Cmd_bind Cmd.bind Cmd.bind2 Cmd.await Cmd.emit
                                  _logSuperselect].
      rewrite Hp. destruct p; reflexivity. }
  split.
  - intros u Hu. apply (Hrun _ Hu).
  - intros e He. apply (Hrun _ He).
Qed.

Lemma editLayer_smart_object_witness :
  editLayerCommand Cases.refusing (Sample.doc []) Cases.smart None None =
    ([LogSuperselect "edit_smart_object";
      DescriptorPlay "placedLayerEditContents"], Resolved tt) /\
  editLayerCommand Sample.quiet (Sample.doc []) Cases.smart (Some 3%Q) (Some 4%Q) =
    ([LogSuperselect "edit_smart_object";
      DescriptorPlay "placedLayerEditContents";
      TransferUpdateDocument], Resolved tt).
Proof.
  split.
  - apply (proj2 (editLayer_smart_object Cases.refusing (Sample.doc []) Cases.smart
                    None None eq_refl ltac:(discriminate) ltac:(discriminate) eq_refl
                    (fun _ => ex_intro _ (Sample.box 0 0 10 20) eq_refl))
             (HostError "cancel")).
    reflexivity.
  - apply (proj1 (editLayer_smart_object Sample.quiet (Sample.doc []) Cases.smart
                    (Some 3%Q) (Some 4%Q) eq_refl ltac:(discriminate)
                    ltac:(discriminate) eq_refl
                    (fun H => ex_intro _ (Sample.box 0 0 10 20) eq_refl))
             tt).
    reflexivity.
Defined.

(** X12. Called with two coordinates that are not zero, [editLayerCommand]
    posts the mouse event of a shape or text layer at exactly these window
    coordinates, whatever the bounds of the layer. *)
Theorem editLayer_given_coordinates (env : Env) (document : Document)
    (layer : Layer) (qx qy : Q) :
  isBackground layer = false ->
  Qeq_bool qx 0 = false -> Qeq_bool qy 0 = false ->
  (kind layer = VECTOR (layerKinds layer) ->
   editLayerCommand env document layer (Some qx) (Some qy) =
     ([LogSuperselect "edit_vector"; TransferToolSelect "superselectVector";
       PostLeftMouseDown qx qy], Resolved tt)) /\
  (kind layer <> VECTOR (layerKinds layer) ->
   kind layer = TEXT (layerKinds layer) ->
   editLayerCommand env document layer (Some qx) (Some qy) =
     ([LogSuperselect "edit_text"; TransferToolSelect "superselectType";
       PostLeftMouseDown qx qy], Resolved tt)).
Proof.
  intros Hbg Hx Hy. split.
  - intros Hk. unfold editLayerCommand. cbn [falsy].
    rewrite Hbg, Hx, Hy, Hk, Z.eqb_refl. reflexivity.
  - intros Hv Hk. apply Z.eqb_neq in Hv. unfold editLayerCommand. cbn [falsy].
    rewrite Hbg, Hx, Hy, Hv, Hk, Z.eqb_refl. reflexivity.
Qed.

Lemma editLayer_given_coordinates_witness :
  editLayerCommand Sample.quiet (Sample.doc []) Sample.unbounded
    (Some 300%Q) (Some 400%Q) =
    ([LogSuperselect "edit_vector"; TransferToolSelect "superselectVector";
      PostLeftMouseDown 300 400], Resolved tt).
Proof.
  apply (proj1 (editLayer_given_coordinates Sample.quiet (Sample.doc [])
                  Sample.unbounded 300 400 eq_refl eq_refl eq_refl)).
  reflexivity.
Defined.

(** X13. A coordinate that is zero counts as no coordinate: the command
    then behaves as when called without coordinates, taking the center of
    the bounds or doing nothing without bounds. *)
Theorem editLayer_zero_coordinate (env : Env) (document : Document)
    (layer : Layer) (x y : option Q) :
  x = Some 0%Q \/ y = Some 0%Q ->
  editLayerCommand env document layer x y =
  editLayerCommand env document layer None None.
Proof.
  intros Hzero. unfold editLayerCommand.
  assert (falsy x || falsy y = true) as ->.
  { destruct Hzero as [-> | ->]; [reflexivity|]. apply orb_true_r. }
  reflexivity.
Qed.

Lemma editLayer_zero_coordinate_witness :
  editLayerCommand Sample.quiet (Sample.doc []) Sample.shape (Some 0%Q) (Some 7%Q) =
    ([LogSuperselect "edit_vector"; TransferToolSelect "superselectVector";
      PostLeftMouseDown (Qdiv (Qplus 20 0) 2) (Qdiv (Qplus 0 10) 2)], Resolved tt).
Proof.
  rewrite (editLayer_zero_coordinate Sample.quiet (Sample.doc []) Sample.shape
             (Some 0%Q) (Some 7%Q) (or_introl eq_refl)).
  reflexivity.
Defined.

(** ** Further properties of stepping to a sibling *)

Lemma rem_wraps_to_mod (a n : Z) :
  0 < n ->
  (if Z.rem a n <? 0 then n + Z.rem a n else Z.rem a n) = a mod n.
Proof.
  intros Hn.
  pose proof (Z.quot_rem' a n) as Hq.
  assert (0 <= a \/ a <= 0) as [Ha|Ha] by lia.
  - pose proof (Z.rem_bound_pos a n Ha Hn) as Hr.
    destruct (Z.rem a n <? 0) eqn:E; [apply Z.ltb_lt in E; lia|].
    apply (Z.mod_unique_pos a n (Z.quot a n)); [exact Hr | exact Hq].
  - pose proof (Z.rem_bound_pos_neg a n Hn Ha) as Hr.
    destruct (Z.rem a n <? 0) eqn:E;
      [apply Z.ltb_lt in E | apply Z.ltb_ge in E].
    + apply (Z.mod_unique_pos a n (Z.quot a n - 1)); [lia|].
      transitivity (n * Z.quot a n + Z.rem a n); [exact Hq | ring].
    + apply (Z.mod_unique_pos a n (Z.quot a n)); [lia | exact Hq].
Qed.

Lemma get_rem_mod {A : Type} `{EqDecision A} (l : list A) (a : Z) :
  l <> [] ->
  Immutable.get l (Js.rem a (Immutable.size l)) =
  nth_error l (Z.to_nat (a mod Immutable.size l)).
Proof.
  intros Hl. assert (0 < Immutable.size l) as Hn.
  { unfold Immutable.size. destruct l; [contradiction | simpl; lia]. }
  unfold Immutable.get, Js.rem.
  destruct (Immutable.size l =? 0) eqn:Hz; [apply Z.eqb_eq in Hz; lia|].
  rewrite (rem_wraps_to_mod a _ Hn).
  pose proof (Z.mod_pos_bound a _ Hn) as Hm.
  destruct (0 <=? _) eqn:H0; [|apply Z.leb_gt in H0; lia].
  destruct (_ <? Immutable.size l) eqn:H1; [|apply Z.ltb_ge in H1; lia].
  reflexivity.
Qed.

Lemma nextSiblings_unfold (layerTree : LS.t) (previous : bool) (l : Layer)
    (rest : list Layer) :
  LS.all layerTree <> [] ->
  considered layerTree = l :: rest ->
  _getNextSiblingsForSelectedLayers layerTree previous =
    [Immutable.get (selectableSiblings layerTree l)
       (Js.rem
          ((if Immutable.isEmpty (selectableSiblings layerTree l) then 0
            else Immutable.indexOf (selectableSiblings layerTree l) l)
           + (if previous then -1 else 1))
          (Immutable.size (selectableSiblings layerTree l)))].
Proof.
  intros Hall Hcons. unfold _getNextSiblingsForSelectedLayers.
  apply isEmpty_cons in Hall. rewrite Hall.
  fold (considered layerTree). rewrite Hcons. reflexivity.
Qed.

(** X14. [_getNextSiblingsForSelectedLayers] returns at most one entry, and
    none exactly when the tree has no layers or there is no layer to start
    from; [nextSiblingCommand] asks to select even then, an empty list. *)
Theorem nextSiblings_at_most_one (doc : Document) (previous : bool) :
  let layerTree := layers doc in
  let next := _getNextSiblingsForSelectedLayers layerTree previous in
  (length next <= 1)%nat /\
  (next = [] <-> LS.all layerTree = [] \/ considered layerTree = []) /\
  (next = [] ->
   nextSiblingCommand doc previous =
     ([LogSuperselect "key_next_sibling";
       TransferSelect (docId doc) (LayerList []) None], Resolved tt)).
Proof.
  intros layerTree next.
  assert (next = [] -> nextSiblingCommand doc previous =
            ([LogSuperselect "key_next_sibling";
              TransferSelect (docId doc) (LayerList []) None], Resolved tt)) as Hcmd.
  { intros Hnil. unfold nextSiblingCommand. fold layerTree. fold next.
    rewrite Hnil. reflexivity. }
  destruct (LS.all layerTree) as [|a rest] eqn:Hall.
  - assert (next = []) as Hnil.
    { unfold next, _getNextSiblingsForSelectedLayers. rewrite Hall. reflexivity. }
    rewrite Hnil. split; [simpl; lia|]. split; [tauto | intros _; exact (Hcmd Hnil)].
  - destruct (considered layerTree) as [|l others] eqn:Hcons.
    + assert (next = []) as Hnil.
      { unfold next, _getNextSiblingsForSelectedLayers. rewrite Hall.
        fold (considered layerTree). rewrite Hcons. reflexivity. }
      rewrite Hnil. split; [simpl; lia|]. split; [tauto | intros _; exact (Hcmd Hnil)].
    + assert (LS.all layerTree <> []) as Hsome by (rewrite Hall; discriminate).
      unfold next at 1 2.
      rewrite (nextSiblings_unfold layerTree previous l others Hsome Hcons).
      split; [simpl; lia|]. split; [|exact Hcmd].
      split; [discriminate | intros [H|H]; discriminate H].
Qed.

Lemma nextSiblings_at_most_one_witness :
  nextSiblingCommand (Sample.doc []) true =
    ([LogSuperselect "key_next_sibling"; TransferSelect 7 (LayerList []) None],
     Resolved tt).
Proof.
  apply (proj2 (proj2 (nextSiblings_at_most_one (Sample.doc []) true))).
  reflexivity.
Defined.

(** X15. When the layer to start from has no superSelectable sibling, the
    index is [NaN] in either direction, and the single entry returned is
    [undefined]. *)
Theorem nextSiblings_without_candidate (layerTree : LS.t) (previous : bool)
    (l : Layer) (rest : list Layer) :
  LS.all layerTree <> [] ->
  considered layerTree = l :: rest ->
  (forall s, In s (LS.siblings layerTree l) -> superSelectable s = false) ->
  _getNextSiblingsForSelectedLayers layerTree previous = [None].
Proof.
  intros Hall Hcons Hnone.
  rewrite (nextSiblings_unfold layerTree previous l rest Hall Hcons).
  assert (selectableSiblings layerTree l = []) as ->
    by (apply filter_nil_iff, Hnone).
  reflexivity.
Qed.

Lemma nextSiblings_without_candidate_witness :
  _getNextSiblingsForSelectedLayers (Sample.flat [Cases.pinned]) true = [None].
Proof.
  apply (nextSiblings_without_candidate (Sample.flat [Cases.pinned]) true
           Cases.pinned []).
  - discriminate.
  - reflexivity.
  - intros s [<-|[]]. reflexivity.
Defined.

(** X16. When the layer to start from has [n] superSelectable siblings,
    the entry returned is the sibling at position [(i + step) mod n], where
    [i] is the position of the layer among them, or -1 when it is not one
    of them: a layer that is not superSelectable itself steps forward to
    the first of its superSelectable siblings. *)
Theorem nextSiblings_position (layerTree : LS.t) (previous : bool)
    (l : Layer) (rest : list Layer) :
  let sibs := selectableSiblings layerTree l in
  let n := Immutable.size sibs in
  let i := Immutable.indexOf sibs l in
  LS.all layerTree <> [] ->
  considered layerTree = l :: rest ->
  sibs <> [] ->
  _getNextSiblingsForSelectedLayers layerTree previous =
    [nth_error sibs (Z.to_nat ((i + (if previous then -1 else 1)) mod n))] /\
  (~ In l sibs -> previous = false ->
   _getNextSiblingsForSelectedLayers layerTree previous = [Immutable.first sibs]).
Proof.
  intros sibs n i Hall Hcons Hsibs.
  assert (_getNextSiblingsForSelectedLayers layerTree previous =
          [nth_error sibs (Z.to_nat ((i + (if previous then -1 else 1)) mod n))])
    as Hpos.
  { rewrite (nextSiblings_unfold layerTree previous l rest Hall Hcons).
    fold sibs. fold i. fold n.
    assert (Immutable.isEmpty sibs = false) as -> by (apply isEmpty_cons, Hsibs).
    subst n. rewrite (get_rem_mod sibs _ Hsibs). reflexivity. }
  split; [exact Hpos|].
  intros Hout ->. rewrite Hpos.
  assert (i = -1) as -> by (apply indexOf_missing, Hout).
  change (-1 + 1) with 0. rewrite Z.mod_0_l.
  - destruct sibs; [contradiction | reflexivity].
  - subst n. unfold Immutable.size. destruct sibs; [contradiction | simpl; lia].
Qed.

Lemma nextSiblings_position_witness :
  _getNextSiblingsForSelectedLayers
    (Sample.flat [Cases.lower; Cases.pinned; Cases.upper]) false
    = [Some Cases.lower].
Proof.
  apply (proj2 (nextSiblings_position
                  (Sample.flat [Cases.lower; Cases.pinned; Cases.upper]) false
                  Cases.pinned [] ltac:(discriminate) eq_refl
                  ltac:(vm_compute; discriminate))).
  - intros [H|[H|[]]]; discriminate H.
  - reflexivity.
Defined.

(** ** Further properties of the double click *)

Section DoubleClickOutcome.
Variables (env : Env) (doc : Document) (x y : Q) (hit : list Z).

Let coords := transformWindowToCanvas env x y.
Let layerTree := layers doc.
Let dc := doubleClickCommand env doc x y.

Hypothesis Hhit :
  _getHitLayerIDs env (docId doc) (px coords) (py coords) = Resolved hit.

Ltac double_click_cases :=
  unfold dc, doubleClickCommand; fold coords; rewrite Hhit;
  cbv beta iota zeta delta [mbind Cmd_bind Cmd.bind Cmd.await];
  fold layerTree;
  destruct (Immutable.isEmpty (_getDiveableLayers layerTree _)) eqn:Hdive;
  [ destruct (List.find _ (LS.selected layerTree)) as [c|] eqn:Hfind
  | destruct (Immutable.isEmpty (collection.intersection hit _)) eqn:Htarget;
    [ destruct (Immutable.isEmpty (_getLayersBelowCurrentSelection layerTree _))
        eqn:Hunder
    | ] ];
  cbn.




Lemma doubleClick_blind :
  hit = [] ->
  (forall r, In r (Cmd.requests dc) ->
             exists target, r = TransferSelect (docId doc) target None) /\
  (~ hasDiveableChild layerTree -> dc = ([], Resolved tt)).
Proof.
  intros Hempty. split.
  - double_click_cases; intros r Hin;
      try (apply find_some in Hfind as [_ Hc]; rewrite Hempty in Hc;
           discriminate Hc);
      try (rewrite Hempty in Htarget; discriminate Htarget);
      repeat match type of Hin with
             | _ \/ _ => destruct Hin as [Hin|Hin]
             | False => destruct Hin
             end; subst r; eauto.
  - intros Hno. apply (doubleClick_edit_nothing env doc x y hit Hhit Hno).
    intros l _. rewrite Hempty. intros [].
Qed.

End DoubleClickOutcome.



(** X18. When the hit test fails, a double click never asks for an edit
    mode and never dives: whatever it sends is a select request without
    modifier (the fall to a layer below the selection), and it sends
    nothing when the layers dived into have no superSelectable child. *)
Theorem doubleClick_without_hit_test (env : Env) (doc : Document) (x y : Q)
    (e : Error) :
  let coords := transformWindowToCanvas env x y in
  let dc := doubleClickCommand env doc x y in
  playObject env (layerIDsAtPoint (docId doc) (px coords) (py coords)) = Rejected e ->
  (forall r, In r (Cmd.requests dc) ->
             exists target, r = TransferSelect (docId doc) target None) /\
  (~ hasDiveableChild (layers doc) -> dc = ([], Resolved tt)).
Proof.
  intros coords dc He.
  apply (doubleClick_blind env doc x y []); [|reflexivity].
  apply (getHitLayerIDs_failure env _ _ _ e He).
Qed.

Lemma doubleClick_without_hit_test_witness :
  doubleClickCommand Cases.refusing (Sample.groupDoc [Sample.freeChild]) 30 30 =
    ([], Resolved tt).
Proof.
  apply (proj2 (doubleClick_without_hit_test Cases.refusing
                  (Sample.groupDoc [Sample.freeChild]) 30 30
                  (HostError "no document") eq_refl)).
  exact grouped_leaf_no_child.
Defined.

(** ** Dragging *)

Lemma clickRequests_app (r1 r2 : list Drag.Request) :
  clickRequests (r1 ++ r2) = clickRequests r1 ++ clickRequests r2.
Proof. unfold clickRequests. apply flat_map_app. Qed.

Lemma clickRequests_clicked (l : list Effect) :
  clickRequests (map Drag.Clicked l) = l.
Proof.
  induction l as [|e l IH]; [reflexivity|]. cbn. f_equal. exact IH.
Qed.

Lemma clickRequests_removeIfSet (event : string) (listener : option nat) :
  clickRequests (Drag.removeIfSet event listener) = [].
Proof. destruct listener; reflexivity. Qed.

Section DragOnce.
Variables (platform : Drag.Platform) (env : Env) (vars : Drag.Listeners)
          (doc : Document) (x y : Q) (modifiers : Modifiers.t).

Let diveIn :=
  if Drag.isMac platform then Modifiers.command modifiers
  else Modifiers.control modifiers.
Let drag := Drag.dragCommand platform env vars doc x y modifiers.


Lemma drag_click_part (panning : bool) :
  clickRequests (fst (fst (drag panning))) =
  if panning || Modifiers.shift modifiers then []
  else Cmd.requests (clickCommand env doc x y diveIn false).
Proof.
  unfold drag, Drag.dragCommand. fold diveIn. destruct panning; [reflexivity|].
  destruct (Modifiers.shift modifiers); [reflexivity|].
  cbn [orb]. destruct (Cmd.settled _) as [[|]|]; cbn [fst];
    rewrite ?clickRequests_app, ?clickRequests_clicked, ?clickRequests_removeIfSet,
      ?app_nil_r; reflexivity.
Qed.

Lemma drag_keeps_variables (panning : bool) :
  panning || Modifiers.shift modifiers = true \/
  Cmd.settled (clickCommand env doc x y diveIn false) <> Resolved true ->
  snd (fst (drag panning)) = vars.
Proof.
  unfold drag, Drag.dragCommand. fold diveIn. destruct panning; [reflexivity|].
  destruct (Modifiers.shift modifiers); [reflexivity|].
  intros [H|H]; [discriminate H|].
  destruct (Cmd.settled _) as [[|]|]; [contradiction | reflexivity | reflexivity].
Qed.


End DragOnce.



(** X20. The selection requests of a drag are those of one click that
    never adds: none when the drag pans or shift is held, and otherwise
    the requests of [clickCommand] at the same point with [add = false],
    deep exactly when the command key (on a Mac) or the control key
    (elsewhere) is held. A drag that pans, holds shift, or whose click
    does not resolve [true] leaves the remembered listeners as they
    were. *)
Theorem drag_clicks_without_add (platform : Drag.Platform) (env : Env)
    (vars : Drag.Listeners) (doc : Document) (x y : Q) (modifiers : Modifiers.t)
    (panning : bool) :
  let diveIn :=
    if Drag.isMac platform then Modifiers.command modifiers
    else Modifiers.control modifiers in
  let drag := Drag.dragCommand platform env vars doc x y modifiers panning in
  clickRequests (fst (fst drag)) =
    (if panning || Modifiers.shift modifiers then []
     else Cmd.requests (clickCommand env doc x y diveIn false)) /\
  (panning || Modifiers.shift modifiers = true \/
   Cmd.settled (clickCommand env doc x y diveIn false) <> Resolved true ->
   snd (fst drag) = vars).
Proof.
  intros diveIn drag. split.
  - apply drag_click_part.
  - apply drag_keeps_variables.
Qed.

Lemma drag_clicks_without_add_witness :
  snd (fst (Drag.dragCommand Cases.mac (Sample.env (Sample.hits [1])) Drag.initial
              (Sample.doc [Sample.shape]) 5 5 Cases.shiftKey false)) = Drag.initial.
Proof.
  apply (proj2 (drag_clicks_without_add Cases.mac (Sample.env (Sample.hits [1]))
                  Drag.initial (Sample.doc [Sample.shape]) 5 5 Cases.shiftKey false)).
  left. reflexivity.
Defined.

(** X21. A drag without shift that does not pan starts where its click
    lands. On a layer that is selected already it sends no selection
    request: it takes out the listeners it remembers, installs new ones,
    hides the overlays and posts the mouse event, so the selection is
    dragged as it is. Where nothing can be clicked it deselects all layers
    (if any is selected) and opens the marquee at the point, leaving the
    remembered listeners as they were. *)
Theorem drag_follows_click (platform : Drag.Platform) (env : Env)
    (vars : Drag.Listeners) (doc : Document) (x y : Q) (modifiers : Modifiers.t)
    (hit : list Z) :
  let coords := transformWindowToCanvas env x y in
  let diveIn :=
    if Drag.isMac platform then Modifiers.command modifiers
    else Modifiers.control modifiers in
  let clicked := clickedSelectableLayerIDs env (layers doc) coords diveIn hit in
  let drag := Drag.dragCommand platform env vars doc x y modifiers false in
  Modifiers.shift modifiers = false ->
  _getHitLayerIDs env (docId doc) (px coords) (py coords) = Resolved hit ->
  (forall t top,
     Immutable.last clicked = Some t -> LS.byID (layers doc) t = Some top ->
     selected top = true ->
     drag =
       (Drag.removeIfSet "move" (Drag._moveListener vars)
        ++ Drag.removeIfSet "moveToArtboard" (Drag._moveToArtboardListener vars)
        ++ [Drag.AddListener "moveToArtboard" (Drag.allocated vars);
            Drag.OnceListener "move" (Drag.allocated vars);
            Drag.ToggleOverlays false;
            Drag.PostDrag x y (Drag.modifiersToBits platform modifiers)],
        {| Drag._moveListener := Some (Drag.allocated vars);
           Drag._moveToArtboardListener := Some (Drag.allocated vars);
           Drag.allocated := S (Drag.allocated vars) |},
        Resolved tt)) /\
  (clicked = [] -> LS.selected (layers doc) <> [] ->
   drag =
     ([Drag.Clicked (LogSuperselect "deselect_all");
       Drag.Clicked (TransferDeselectAll (docId doc));
       Drag.StartMarquee x y], vars, Resolved tt)) /\
  (clicked = [] -> LS.selected (layers doc) = [] ->
   drag = ([Drag.StartMarquee x y], vars, Resolved tt)).
Proof.
  intros coords diveIn clicked drag Hshift Hhit. split; [|split].
  - intros t top Hlast Hfound Hsel.
    unfold drag, Drag.dragCommand. fold diveIn. rewrite Hshift.
    rewrite (click_on_selected env doc x y diveIn hit Hhit t top Hlast Hfound Hsel).
    reflexivity.
  - intros Hnone Hsel.
    unfold drag, Drag.dragCommand. fold diveIn. rewrite Hshift.
    rewrite (click_nothing_deselects env doc x y diveIn hit Hhit false Hnone Hsel).
    reflexivity.
  - intros Hnone Hsel.
    unfold drag, Drag.dragCommand. fold diveIn. rewrite Hshift.
    rewrite (click_nothing_selected env doc x y diveIn hit Hhit false Hnone Hsel).
    reflexivity.
Qed.

Lemma drag_follows_click_witness :
  Drag.dragCommand Cases.mac (Sample.env (Sample.hits [2; 1])) Drag.initial
    (Sample.doc [Sample.shape; Sample.caption]) 5 5 Cases.noKeys false =
    ([Drag.AddListener "moveToArtboard" 0%nat; Drag.OnceListener "move" 0%nat;
      Drag.ToggleOverlays false; Drag.PostDrag 5 5 0],
     {| Drag._moveListener := Some 0%nat; Drag._moveToArtboardListener := Some 0%nat;
        Drag.allocated := 1%nat |},
     Resolved tt) /\
  Drag.dragCommand Cases.mac (Sample.env (Sample.hits [])) Drag.initial
    (Sample.groupDoc [Sample.freeChild]) 500 500 Cases.noKeys false =
    ([Drag.Clicked (LogSuperselect "deselect_all");
      Drag.Clicked (TransferDeselectAll 7);
      Drag.StartMarquee 500 500], Drag.initial, Resolved tt).
Proof.
  split.
  - apply (proj1 (drag_follows_click Cases.mac (Sample.env (Sample.hits [2; 1]))
                    Drag.initial (Sample.doc [Sample.shape; Sample.caption]) 5 5
                    Cases.noKeys [2; 1] eq_refl eq_refl) 1 Sample.shape);
      reflexivity.
  - apply (proj1 (proj2 (drag_follows_click Cases.mac (Sample.env (Sample.hits []))
                           Drag.initial (Sample.groupDoc [Sample.freeChild])
                           500 500 Cases.noKeys [] eq_refl eq_refl)));
      [reflexivity | discriminate].
Defined.

(** ** The listeners of a series of drags *)

Lemma listening_app (event : string) (r1 r2 : list Drag.Request) (before : list nat) :
  Drag.listening event (r1 ++ r2) before =
  Drag.listening event r2 (Drag.listening event r1 before).
Proof. unfold Drag.listening. apply fold_left_app. Qed.

Lemma listening_clicked (event : string) (l : list Effect) (before : list nat) :
  Drag.listening event (map Drag.Clicked l) before = before.
Proof.
  revert before. induction l as [|e l IH]; intros before; [reflexivity|].
  cbn. apply IH.
Qed.

Lemma removeOne_only (remembered : option nat) (listeners : list nat) :
  onlyListener remembered listeners ->
  match remembered with
  | Some n => Drag.removeOne n listeners
  | None => listeners
  end = [].
Proof.
  intros [-> | (n & -> & ->)]; [destruct remembered; reflexivity|].
  cbn. rewrite Nat.eqb_refl. reflexivity.
Qed.

Section DragListeners.
Variables (platform : Drag.Platform) (env : Env).

Lemma drag_keeps_one_listener (vars : Drag.Listeners) (c : Drag.Call)
    (moves arts : list nat) :
  onlyListener (Drag._moveListener vars) moves ->
  onlyListener (Drag._moveToArtboardListener vars) arts ->
  let result :=
    Drag.dragCommand platform env vars (Drag.doc c) (Drag.x c) (Drag.y c)
      (Drag.modifiers c) (Drag.panning c) in
  onlyListener (Drag._moveListener (snd (fst result)))
    (Drag.listening "move" (fst (fst result)) moves) /\
  onlyListener (Drag._moveToArtboardListener (snd (fst result)))
    (Drag.listening "moveToArtboard" (fst (fst result)) arts).
Proof.
  intros Hm Ha. unfold Drag.dragCommand.
  destruct (Drag.panning c); [split; assumption|].
  destruct (Modifiers.shift (Drag.modifiers c)); [split; assumption|].
  destruct (Cmd.settled _) as [[|]|]; cbn [fst snd].
  - rewrite !listening_app, !listening_clicked.
    pose proof (removeOne_only _ _ Hm) as Hm'.
    pose proof (removeOne_only _ _ Ha) as Ha'.
    destruct (Drag._moveListener vars), (Drag._moveToArtboardListener vars);
      cbn in Hm', Ha' |- *; rewrite ?Hm', ?Ha'; split; right; eauto.
  - rewrite !listening_app, !listening_clicked. split; assumption.
  - rewrite !listening_clicked. split; assumption.
Qed.

Lemma dragAll_keeps_one_listener (calls : list Drag.Call) (vars : Drag.Listeners)
    (moves arts : list nat) :
  onlyListener (Drag._moveListener vars) moves ->
  onlyListener (Drag._moveToArtboardListener vars) arts ->
  let result := Drag.dragAll platform env vars calls in
  onlyListener (Drag._moveListener (snd result))
    (Drag.listening "move" (fst result) moves) /\
  onlyListener (Drag._moveToArtboardListener (snd result))
    (Drag.listening "moveToArtboard" (fst result) arts).
Proof.
  revert vars moves arts. induction calls as [|c calls IH];
    intros vars moves arts Hm Ha; [split; assumption|].
  cbn [Drag.dragAll].
  pose proof (drag_keeps_one_listener vars c moves arts Hm Ha) as Hstep.
  destruct (Drag.dragCommand platform env vars (Drag.doc c) (Drag.x c) (Drag.y c)
              (Drag.modifiers c) (Drag.panning c)) as [[requests vars'] p].
  cbn [fst snd] in Hstep. destruct Hstep as [Hm' Ha'].
  specialize (IH vars' _ _ Hm' Ha').
  destruct (Drag.dragAll platform env vars' calls) as [rest vars''].
  cbn [fst snd] in IH |- *. rewrite !listening_app. exact IH.
Qed.

End DragListeners.

(** X22. However many drags follow each other from the start of the
    module, at most one move listener and at most one moveToArtboard
    listener of theirs is installed, and an installed one is the one the
    module remembers: each drag that installs listeners first takes out
    the ones of the drag before. *)
Theorem drag_one_move_listener (platform : Drag.Platform) (env : Env)
    (calls : list Drag.Call) :
  let result := Drag.dragAll platform env Drag.initial calls in
  let moves := Drag.listening "move" (fst result) [] in
  let arts := Drag.listening "moveToArtboard" (fst result) [] in
  (length moves <= 1)%nat /\ (length arts <= 1)%nat /\
  (forall n, In n moves -> Drag._moveListener (snd result) = Some n) /\
  (forall n, In n arts -> Drag._moveToArtboardListener (snd result) = Some n).
Proof.
  intros result moves arts.
  destruct (dragAll_keeps_one_listener platform env calls Drag.initial [] [])
    as [Hm Ha]; [left; reflexivity | left; reflexivity |].
  fold result in Hm, Ha. fold moves in Hm. fold arts in Ha.
  assert (forall remembered listeners,
            onlyListener remembered listeners ->
            (length listeners <= 1)%nat /\
            forall n, In n listeners -> remembered = Some n) as Honly.
  { intros remembered listeners [-> | (n & -> & ->)].
    - split; [simpl; lia | intros n []].
    - split; [simpl; lia | intros m [<-|[]]; reflexivity]. }
  destruct (Honly _ _ Hm) as [Hm1 Hm2]. destruct (Honly _ _ Ha) as [Ha1 Ha2].
  auto.
Qed.

Example drag_twice :
  let env := Sample.env (Sample.hits [2; 1]) in
  let call :=
    {| Drag.doc := Sample.doc [Sample.shape; Sample.caption];
       Drag.x := 5; Drag.y := 5;
       Drag.modifiers := Cases.noKeys; Drag.panning := false |} in
  let result := Drag.dragAll Cases.mac env Drag.initial [call; call] in
  Drag.listening "move" (fst result) [] = [1%nat] /\
  Drag._moveListener (snd result) = Some 1%nat.
Proof. split; reflexivity. Qed.

(** ** Further properties of backing out *)

Lemma length_add {A : Type} `{EqDecision A} (x : A) (s : list A) :
  (length (Immutable.add x s) <= S (length s))%nat.
Proof.
  unfold Immutable.add. destruct (Immutable.contains s x); [lia|].
  rewrite length_app. simpl. lia.
Qed.

Lemma length_parents_fold (layerTree : LS.t) (noDeselect : bool)
    (sel acc : list Layer) :
  (length
     (fold_left
        (fun parents layer =>
           let parent := LS.parent layerTree layer in
           if noDeselect && negb (bool_decide (is_Some parent))
           then Immutable.add layer parents
           else match parent with
                | Some p => Immutable.add p parents
                | None => parents
                end)
        sel acc)
   <= length acc + length sel)%nat.
Proof.
  revert acc. induction sel as [|l sel IH]; intros acc; cbn [fold_left length];
    [lia|].
  etransitivity; [apply IH|].
  cbv zeta. destruct (noDeselect && _).
  - pose proof (length_add l acc). lia.
  - destruct (LS.parent layerTree l) as [p|]; [|lia].
    pose proof (length_add p acc). lia.
Qed.

(** X23. Backing out never selects more layers than are selected, and with
    [noDeselect] it never asks to deselect all layers. *)
Theorem backOut_bounds (doc : Document) (noDeselect : bool) :
  (length (_getSelectedLayerParents (layers doc) noDeselect)
   <= length (LS.selected (layers doc)))%nat /\
  (forall d, ~ In (TransferDeselectAll d) (Cmd.requests (backOutCommand doc true))).
Proof.
  split.
  - unfold _getSelectedLayerParents.
    apply (length_parents_fold (layers doc) noDeselect (LS.selected (layers doc)) []).
  - intros d. unfold backOutCommand.
    destruct (Immutable.isEmpty _); cbn; intros Hin;
      repeat match type of Hin with
             | _ \/ _ => destruct Hin as [Hin|Hin]
             | False => destruct Hin
             | _ = _ => discriminate Hin
             end.
Qed.

Lemma backOut_bounds_witness :
  ~ In (TransferDeselectAll 7)
       (Cmd.requests (backOutCommand (Sample.groupDoc [Sample.beside]) true)).
Proof.
  apply (proj2 (backOut_bounds (Sample.groupDoc [Sample.beside]) true) 7).
Defined.

Lemma drag_one_move_listener_witness :
  Drag._moveListener
    (snd (Drag.dragAll Cases.mac (Sample.env (Sample.hits [2; 1])) Drag.initial
            [ {| Drag.doc := Sample.doc [Sample.shape; Sample.caption];
                 Drag.x := 5; Drag.y := 5;
                 Drag.modifiers := Cases.noKeys; Drag.panning := false |};
              {| Drag.doc := Sample.doc [Sample.shape; Sample.caption];
                 Drag.x := 6; Drag.y := 6;
                 Drag.modifiers := Cases.noKeys; Drag.panning := false |} ]))
    = Some 1%nat.
Proof.
  apply (proj1 (proj2 (proj2 (drag_one_move_listener Cases.mac
                                (Sample.env (Sample.hits [2; 1])) _))) 1%nat).
  left. reflexivity.
Defined.

Lemma getDiveableLayers_spec_witness :
  In Sample.freeChild
     (_getDiveableLayers (Sample.grouped []) [Sample.group; Sample.beside]) /\
  ~ In Sample.lockedChild
       (_getDiveableLayers (Sample.grouped []) [Sample.group; Sample.beside]).
Proof.
  split.
  - apply (proj1 (getDiveableLayers_spec (Sample.grouped [])
                    [Sample.group; Sample.beside]) Sample.freeChild).
    split; [reflexivity|]. exists Sample.group. split; [left; reflexivity|].
    right. left. reflexivity.
  - intros Hin.
    apply (proj1 (getDiveableLayers_spec (Sample.grouped [])
                    [Sample.group; Sample.beside]) Sample.lockedChild) in Hin.
    destruct Hin as [Hsuper _]. discriminate Hsuper.
Defined.

Lemma getLayersBelowCurrentSelection_spec_witness :
  In 14 (_getLayersBelowCurrentSelection (Sample.grouped [Sample.freeChild])
           [Sample.beside; Sample.group; Sample.lockedChild]) /\
  ~ In 10 (_getLayersBelowCurrentSelection (Sample.grouped [Sample.freeChild])
             [Sample.beside; Sample.group; Sample.lockedChild]).
Proof.
  split.
  - apply (proj2 (getLayersBelowCurrentSelection_spec
                    (Sample.grouped [Sample.freeChild])
                    [Sample.beside; Sample.group; Sample.lockedChild]) 14).
    exists Sample.beside. split; [left; reflexivity|]. split; [reflexivity|].
    split; [reflexivity|]. split; [discriminate|].
    intros s [<-|[]] [H|[H|[]]]; discriminate H.
  - intros Hin.
    apply (proj2 (getLayersBelowCurrentSelection_spec
                    (Sample.grouped [Sample.freeChild])
                    [Sample.beside; Sample.group; Sample.lockedChild]) 10) in Hin.
    destruct Hin as (l & Hl & Hid & _ & _ & Hanc).
    destruct Hl as [<-|[<-|[<-|[]]]]; try discriminate Hid.
    apply (Hanc Sample.freeChild); [left; reflexivity|]. right. left. reflexivity.
Defined.
